(** * Student Companion App: a shallow embedding of [app.py]

    The service keeps four process-wide lists (notes, moods, tasks, study
    sessions) and exposes one handler per endpoint.  The handlers are
    modelled as computations in a small state-and-error monad over the
    four stores; the clock, the random generator, the sentiment library
    and the Unicode database of the runtime are the outside world of a
    call and are passed in.

    A Python [str] is a sequence of code points.  The texts whose
    characters the code looks at (the note of [add_note], the text of
    [mood_check]) are lists of code points, and what [\w], [str.strip]
    and [str.lower] do with them is read from the Unicode database.  The
    strings the code only compares, joins or stores (categories, subjects,
    statuses, ids, labels and tips) are Rocq [string]s, the UTF-8 bytes of
    the Python string.  Python [float]s are IEEE binary64 values, as are
    Rocq's primitive floats. *)

From Stdlib Require Import ZArith Floats Ascii String List Bool Lia.
From stdpp Require Import base list strings gmap pretty sorting.

Set Warnings "-inexact-float".

Local Open Scope string_scope.
Local Open Scope Z_scope.
Local Open Scope list_scope.

(** ** Strings that are compared, joined and searched *)

Module PyStr.

Definition chars (s : string) : list ascii := list_ascii_of_string s.

Fixpoint starts_with (p l : list ascii) : bool :=
  match p, l with
  | [], _ => true
  | a :: p', b :: l' => if Ascii.eqb a b then starts_with p' l' else false
  | _ :: _, [] => false
  end.

Fixpoint contains_chars (p l : list ascii) : bool :=
  starts_with p l ||
  match l with
  | [] => false
  | _ :: l' => contains_chars p l'
  end.

(** [sub in s] *)
Definition contains (sub s : string) : bool := contains_chars (chars sub) (chars s).

(** [x in l] for a list of strings *)
Definition mem (x : string) (l : list string) : bool :=
  existsb (String.eqb x) l.

(** [sep.join(l)] *)
Fixpoint join (sep : string) (l : list string) : string :=
  match l with
  | [] => ""
  | [x] => x
  | x :: l' => x +:+ sep +:+ join sep l'
  end.

End PyStr.

(** ** Texts: Python strings as sequences of code points *)

Module Ustr.

(** A Python [str]: its code points. *)
Abbreviation t := (list N).

(** What the runtime's Unicode database says: which code points [\w]
    matches (alphanumerics and the underscore), which ones [str.isspace]
    holds of, and what [str.lower] returns (a function of the whole
    string: it may change the number of code points). *)
Record Database : Type := mkDatabase {
  is_word : N -> bool;
  is_space : N -> bool;
  lower : t -> t
}.

(** A literal of the source that is written in ASCII. *)
Definition of_ascii (s : string) : t := map N_of_ascii (list_ascii_of_string s).

(** [a == b] *)
Fixpoint eqb (a b : t) : bool :=
  match a, b with
  | [], [] => true
  | x :: a', y :: b' => (x =? y)%N && eqb a' b'
  | _, _ => false
  end.

(** [x in l] for a list of texts *)
Definition mem (x : t) (l : list t) : bool := existsb (eqb x) l.

(** [len(s)] *)
Definition len (s : t) : Z := Z.of_nat (length s).

(** Truth value of a text: the empty text is false. *)
Definition truthy (s : t) : bool :=
  match s with [] => false | _ :: _ => true end.

Fixpoint lstrip (db : Database) (l : t) : t :=
  match l with
  | c :: l' => if is_space db c then lstrip db l' else l
  | [] => []
  end.

(** [s.strip()] *)
Definition strip (db : Database) (s : t) : t :=
  rev (lstrip db (rev (lstrip db s))).

Fixpoint starts_with (p l : t) : bool :=
  match p, l with
  | [], _ => true
  | a :: p', b :: l' => if (a =? b)%N then starts_with p' l' else false
  | _ :: _, [] => false
  end.

(** [sub in s] *)
Fixpoint contains (sub l : t) : bool :=
  starts_with sub l ||
  match l with
  | [] => false
  | _ :: l' => contains sub l'
  end.

End Ustr.

(** ** The regular expression [\b\w+\b] under [re.findall]

    The engine is modelled by positions in the subject: [\b] compares the
    word-ness of the characters on both sides of a position, [\w+] takes
    the longest run and gives characters back one at a time while the
    closing [\b] fails, and [findall] restarts after each match, or one
    position further when no match starts where it stands. *)

Module Re.

Definition word_at (db : Ustr.Database) (s : Ustr.t) (pos : nat) : bool :=
  match s !! pos with
  | Some c => Ustr.is_word db c
  | None => false
  end.

Definition word_before (db : Ustr.Database) (s : Ustr.t) (pos : nat) : bool :=
  match pos with
  | O => false
  | S p => word_at db s p
  end.

(** [\b] *)
Definition boundary (db : Ustr.Database) (s : Ustr.t) (pos : nat) : bool :=
  xorb (word_before db s pos) (word_at db s pos).

Fixpoint word_prefix_len (db : Ustr.Database) (l : Ustr.t) : nat :=
  match l with
  | c :: l' => if Ustr.is_word db c then S (word_prefix_len db l') else O
  | [] => O
  end.

(** The greedy [\w+] started at [pos] consumes this many characters. *)
Definition run_length (db : Ustr.Database) (s : Ustr.t) (pos : nat) : nat :=
  word_prefix_len db (drop pos s).

(** Give back characters until the closing [\b] holds; [\w+] keeps at
    least one. *)
Fixpoint backtrack (db : Ustr.Database) (s : Ustr.t) (pos k : nat) : option nat :=
  match k with
  | O => None
  | S k' => if boundary db s (pos + k)%nat then Some (pos + k)%nat
            else backtrack db s pos k'
  end.

(** The end of the match of [\b\w+\b] that starts at [pos], if any. *)
Definition match_at (db : Ustr.Database) (s : Ustr.t) (pos : nat) : option nat :=
  if boundary db s pos then backtrack db s pos (run_length db s pos) else None.

(** The spans [(start, end)] of the successive matches from [pos] on. *)
Fixpoint scan (db : Ustr.Database) (fuel : nat) (s : Ustr.t) (pos : nat)
  : list (nat * nat) :=
  match fuel with
  | O => []
  | S fuel' =>
      if (length s <? pos)%nat then []
      else match match_at db s pos with
           | Some e => (pos, e) :: scan db fuel' s (if (e =? pos)%nat then S e else e)
           | None => scan db fuel' s (S pos)
           end
  end.

Definition slice (s : Ustr.t) (span : nat * nat) : Ustr.t :=
  take (snd span - fst span)%nat (drop (fst span) s).

Definition spans (db : Ustr.Database) (s : Ustr.t) : list (nat * nat) :=
  scan db (S (length s)) s 0.

(** [re.findall(r'\b\w+\b', s)] *)
Definition findall_words (db : Ustr.Database) (s : Ustr.t) : list Ustr.t :=
  map (slice s) (spans db s).

End Re.

(** ** Keyword extraction (lines 104-105 of [add_note]) *)

(** The list the comprehension tests against, written in place at line 105. *)
Definition STOP_WORDS : list Ustr.t :=
  map Ustr.of_ascii ["have"; "that"; "with"; "this"].

(** [[word.lower() for word in re.findall(...) if len(word) > 3 and
     word.lower() not in STOP_WORDS]] *)
Definition extract_keywords (db : Ustr.Database) (note : Ustr.t) : list Ustr.t :=
  flat_map
    (fun word =>
       if (3 <? Ustr.len word) && negb (Ustr.mem (Ustr.lower db word) STOP_WORDS)
       then [Ustr.lower db word] else [])
    (Re.findall_words db note).

(** ** Errors and fallible values *)

(** What a handler can raise: the [HTTPException]s of the source, and the
    lookup errors of Python's subscripts. *)
Inductive PyError : Type :=
| HTTPException (status_code : Z) (detail : string)
| KeyError (key : string)
| IndexError.

(** A value, or the exception raised instead. *)
Definition Res (A : Type) : Type := PyError + A.

Module ResM.
Definition ret {A} (a : A) : Res A := inr a.
Definition raise {A} (e : PyError) : Res A := inl e.
Definition bind {A B} (c : Res A) (k : A -> Res B) : Res B :=
  match c with
  | inl e => inl e
  | inr a => k a
  end.
End ResM.

Declare Scope res_scope.
Delimit Scope res_scope with res.
Notation "x <- c ;; k" := (ResM.bind c (fun x => k))
  (at level 100, c at next level, right associativity) : res_scope.

(** [l[i]] on a list: negative indices count from the end. *)
Definition list_getitem {A} (l : list A) (i : Z) : Res A :=
  let n := Z.of_nat (length l) in
  let j := if i <? 0 then i + n else i in
  if (j <? 0) || (n <=? j) then ResM.raise IndexError
  else match l !! Z.to_nat j with
       | Some a => ResM.ret a
       | None => ResM.raise IndexError
       end.

(** A [dict] with string keys whose key order is observable. *)
Definition Dict (V : Type) : Type := list (string * V).

Fixpoint dict_get {V} (d : Dict V) (k : string) : option V :=
  match d with
  | [] => None
  | (k', v) :: d' => if String.eqb k' k then Some v else dict_get d' k
  end.

(** [k in d] *)
Definition dict_contains {V} (d : Dict V) (k : string) : bool :=
  match dict_get d k with Some _ => true | None => false end.

(** [d[k]] *)
Definition dict_getitem {V} (d : Dict V) (k : string) : Res V :=
  match dict_get d k with
  | Some v => ResM.ret v
  | None => ResM.raise (KeyError k)
  end.

(** [d.keys()] *)
Definition dict_keys {V} (d : Dict V) : list string := map fst d.

(** ** Reference data (lines 57-88) *)

Definition SUBJECTS : list string :=
  [ "Mathematics"; "Physics"; "Chemistry"; "Biology";
    "History"; "Literature"; "Computer Science";
    "Economics"; "Languages"; "Other" ].

Definition NOTE_CATEGORIES : list string :=
  [ "Lecture Notes"; "Study Tips"; "Research Ideas";
    "Questions"; "Homework"; "Project Ideas"; "Other" ].

Definition STUDY_TIPS : Dict (list string) :=
  [ ("focus",
      [ "Find a quiet study space";
        "Use the Pomodoro Technique (25 min study, 5 min break)";
        "Put your phone on silent mode";
        "Take regular short breaks" ]);
    ("memory",
      [ "Create mind maps for complex topics";
        "Teach the concept to someone else";
        "Use spaced repetition technique";
        "Write summary notes after each study session" ]);
    ("motivation",
      [ "Set specific, achievable goals";
        "Reward yourself after completing tasks";
        "Study with a friend or study group";
        "Track your progress regularly" ]) ].

(** The list [update_task_status] tests against, written in place at line 235. *)
Definition TASK_STATUSES : list string := ["pending"; "in-progress"; "completed"].

(** ** Request models (lines 25-48), after the framework filled in the
    defaults *)

Record Note : Type := mkNote {
  note : Ustr.t;
  category : string;
  priority : option Z
}.

Record MoodText : Type := mkMoodText {
  text : Ustr.t
}.

Record Task : Type := mkTask {
  title : string;
  description : string;
  due_date : string;
  subject : string;
  task_priority : Z;
  status : string
}.

Record StudySession : Type := mkStudySession {
  session_subject : string;
  duration : Z;
  goals : list string;
  completed_goals : list string
}.

Record TaskUpdate : Type := mkTaskUpdate {
  new_status : string
}.

(** ** Stored records (lines 51-54) *)

Record Reminder : Type := mkReminder {
  r_note : Ustr.t;
  r_keywords : list Ustr.t;
  r_category : string;
  r_priority : option Z;
  r_timestamp : string
}.

Record MoodEntry : Type := mkMoodEntry {
  m_text : Ustr.t;
  m_mood : string;
  m_tip : string;
  m_timestamp : string
}.

(** [{**task.dict(), "id": ..., "timestamp": ...}] *)
Record TaskEntry : Type := mkTaskEntry {
  t_title : string;
  t_description : string;
  t_due_date : string;
  t_subject : string;
  t_priority : Z;
  t_status : string;
  t_id : string;
  t_timestamp : string
}.

(** [{**session.dict(), "timestamp": ...}] *)
Record SessionEntry : Type := mkSessionEntry {
  s_subject : string;
  s_duration : Z;
  s_goals : list string;
  s_completed_goals : list string;
  s_timestamp : string
}.

(** The four module-level lists. *)
Record Store : Type := mkStore {
  reminders : list Reminder;
  moods : list MoodEntry;
  tasks : list TaskEntry;
  study_sessions : list SessionEntry
}.

Definition initial_store : Store := mkStore [] [] [] [].

(** ** The outside world of one call *)

Record World : Type := mkWorld {
  (** [datetime.now().isoformat()] *)
  now_isoformat : string;
  (** [random.randint(a, b)] *)
  randint : Z -> Z -> Z;
  (** [TextBlob(text).sentiment]: polarity and subjectivity *)
  sentiment : Ustr.t -> float * float;
  (** the Unicode database behind [\w], [str.strip] and [str.lower] *)
  unicode : Ustr.Database
}.

(** [random.randint(a, b)] returns [N] with [a <= N <= b]. *)
Definition randint_in_range (w : World) : Prop :=
  forall a b, a <= b -> a <= randint w a b <= b.

(** ** Handlers: state over the stores, with exceptions *)

Definition M (A : Type) : Type := Store -> Store * Res A.

Module HM.
Definition ret {A} (a : A) : M A := fun s => (s, inr a).
Definition raise {A} (e : PyError) : M A := fun s => (s, inl e).
Definition bind {A B} (c : M A) (k : A -> M B) : M B :=
  fun s =>
    match c s with
    | (s', inl e) => (s', inl e)
    | (s', inr a) => k a s'
    end.
Definition get : M Store := fun s => (s, inr s).
Definition put (s' : Store) : M unit := fun _ => (s', inr tt).
Definition lift {A} (r : Res A) : M A := fun s => (s, r).
(** [if cond: raise e] *)
Definition raise_if (cond : bool) (e : PyError) : M unit :=
  if cond then raise e else ret tt.
End HM.

Declare Scope hm_scope.
Delimit Scope hm_scope with hm.
Notation "x <- c ;; k" := (HM.bind c (fun x => k))
  (at level 100, c at next level, right associativity) : hm_scope.
Notation "c ;; k" := (HM.bind c (fun _ => k))
  (at level 100, right associativity) : hm_scope.

(** [STUDY_TIPS[key][i]] *)
Definition study_tip (key : string) (i : Z) : Res string :=
  (tips <- dict_getitem STUDY_TIPS key ;; list_getitem tips i)%res.

(** ** [add_note] (lines 94-121) *)

Record NoteAdded : Type := mkNoteAdded {
  na_status : string;
  na_keywords : list Ustr.t;
  na_note : Ustr.t;
  na_category : string;
  na_priority : option Z
}.

Definition add_note (w : World) (note_data : Note) : M NoteAdded :=
  (HM.raise_if (negb (Ustr.truthy (Ustr.strip (unicode w) (note note_data))))
     (HTTPException 400 "Note cannot be empty") ;;
   HM.raise_if (negb (PyStr.mem (category note_data) NOTE_CATEGORIES))
     (HTTPException 400
        ("Invalid category. Choose from: " +:+ PyStr.join ", " NOTE_CATEGORIES)) ;;
   let keywords := extract_keywords (unicode w) (note note_data) in
   let reminder :=
     {| r_note := note note_data;
        r_keywords := keywords;
        r_category := category note_data;
        r_priority := priority note_data;
        r_timestamp := now_isoformat w |} in
   s <- HM.get ;;
   HM.put (mkStore (reminders s ++ [reminder]) (moods s) (tasks s) (study_sessions s)) ;;
   HM.ret {| na_status := "Note added ✅";
             na_keywords := keywords;
             na_note := note note_data;
             na_category := category note_data;
             na_priority := priority note_data |})%hm.

(** ** [mood_check] (lines 123-157) *)

(** Lines 134-148: the mood label and the tip. *)
Definition classify_mood (db : Ustr.Database) (polarity subjectivity : float)
    (txt : Ustr.t)
  : Res (string * string) :=
  (if (0.2 <? polarity)%float then
     let mood := "😊 Happy" in
     if (0.5 <? subjectivity)%float then
       t <- study_tip "focus" 0 ;; ResM.ret (mood, "Great mood! " +:+ t)
     else
       t <- study_tip "motivation" 2 ;; ResM.ret (mood, "Excellent! " +:+ t)
   else if (polarity <? -0.2)%float then
     let mood := "😞 Sad" in
     if Ustr.contains (Ustr.of_ascii "tired") (Ustr.lower db txt)
        || Ustr.contains (Ustr.of_ascii "exhausted") (Ustr.lower db txt) then
       t <- study_tip "focus" 3 ;; ResM.ret (mood, "Take a refreshing break! " +:+ t)
     else
       t <- study_tip "motivation" 1 ;; ResM.ret (mood, "It's okay to feel down. " +:+ t)
   else
     let mood := "😐 Neutral" in
     t <- study_tip "memory" 0 ;; ResM.ret (mood, "Stay focused! " +:+ t))%res.

Record MoodChecked : Type := mkMoodChecked {
  mc_mood : string;
  mc_tip : string;
  mc_text : Ustr.t
}.

Definition mood_check (w : World) (mood_data : MoodText) : M MoodChecked :=
  (HM.raise_if (negb (Ustr.truthy (Ustr.strip (unicode w) (text mood_data))))
     (HTTPException 400 "Text cannot be empty") ;;
   let analysis := sentiment w (text mood_data) in
   let polarity := fst analysis in
   let subjectivity := snd analysis in
   classified <- HM.lift (classify_mood (unicode w) polarity subjectivity
                            (text mood_data)) ;;
   let mood := fst classified in
   let tip := snd classified in
   let mood_entry :=
     {| m_text := text mood_data;
        m_mood := mood;
        m_tip := tip;
        m_timestamp := now_isoformat w |} in
   s <- HM.get ;;
   HM.put (mkStore (reminders s) (moods s ++ [mood_entry]) (tasks s) (study_sessions s)) ;;
   HM.ret {| mc_mood := mood; mc_tip := tip; mc_text := text mood_data |})%hm.

(** ** [add_task] (lines 159-171) *)

(** [len(l)] *)
Definition len {A} (l : list A) : Z := Z.of_nat (length l).

(** [str(n)] for an integer *)
Definition str (n : Z) : string := pretty n.

(** The response [{"status": "Task added ✅", **task_entry}]: the entry's own
    ["status"] key comes later and replaces the banner, so the response
    carries exactly the fields of the stored entry. *)
Record TaskAdded : Type := mkTaskAdded {
  ta_entry : TaskEntry
}.

Definition add_task (w : World) (task : Task) : M TaskAdded :=
  (HM.raise_if (negb (PyStr.mem (subject task) SUBJECTS))
     (HTTPException 400
        ("Invalid subject. Choose from: " +:+ PyStr.join ", " SUBJECTS)) ;;
   s <- HM.get ;;
   let task_entry :=
     {| t_title := title task;
        t_description := description task;
        t_due_date := due_date task;
        t_subject := subject task;
        t_priority := task_priority task;
        t_status := status task;
        t_id := str (len (tasks s) + 1);
        t_timestamp := now_isoformat w |} in
   HM.put (mkStore (reminders s) (moods s) (tasks s ++ [task_entry]) (study_sessions s)) ;;
   HM.ret {| ta_entry := task_entry |})%hm.

(** ** [record_study_session] (lines 173-198) *)

Record SessionRecorded : Type := mkSessionRecorded {
  sr_status : string;
  sr_tip : string;
  sr_subject : string;
  sr_duration : Z;
  sr_goals : list string;
  sr_completed_goals : list string
}.

Definition record_study_session (w : World) (session : StudySession)
  : M SessionRecorded :=
  (HM.raise_if (negb (PyStr.mem (session_subject session) SUBJECTS))
     (HTTPException 400
        ("Invalid subject. Choose from: " +:+ PyStr.join ", " SUBJECTS)) ;;
   HM.raise_if ((duration session <? 5) || (480 <? duration session))
     (HTTPException 400 "Duration must be between 5 and 480 minutes") ;;
   let session_entry :=
     {| s_subject := session_subject session;
        s_duration := duration session;
        s_goals := goals session;
        s_completed_goals := completed_goals session;
        s_timestamp := now_isoformat w |} in
   s <- HM.get ;;
   HM.put (mkStore (reminders s) (moods s) (tasks s) (study_sessions s ++ [session_entry])) ;;
   tip <- HM.lift
            (if 120 <? duration session then study_tip "focus" 1
             else (memory <- dict_getitem STUDY_TIPS "memory" ;;
                   list_getitem memory (randint w 0 (len memory - 1)))%res) ;;
   HM.ret {| sr_status := "Study session recorded ✅";
             sr_tip := tip;
             sr_subject := session_subject session;
             sr_duration := duration session;
             sr_goals := goals session;
             sr_completed_goals := completed_goals session |})%hm.

(** ** Python numbers in [get_study_stats] *)

Module PyNum.

(** An [int] or a [float]. *)
Inductive Number : Type :=
| Int (z : Z)
| Float (f : float).

(** [float(n)], exact for [0 <= n < 2^53]: any length a list can have. *)
Definition float_of_int (n : Z) : float := PrimFloat.of_uint63 (Uint63.of_Z n).

(** [a / b] on two such integers: the correctly rounded quotient. *)
Definition truediv (a b : Z) : float := (float_of_int a / float_of_int b)%float.

(** [n / 2^k] rounded to the nearest integer, ties to even ([0 < k]). *)
Definition round_half_even_shift (n k : Z) : Z :=
  let q := Z.shiftr n k in
  let r := n - Z.shiftl q k in
  let half := Z.shiftl 1 (k - 1) in
  if r <? half then q
  else if half <? r then q + 1
  else if Z.even q then q else q + 1.

(** [round(x, 2)] on a float, as CPython computes it: the exact binary
    value is rounded to the nearest multiple of 1/100 (ties to even), and
    the result is the double nearest that decimal.  From [2^46] on every
    double is its own rounding; zeros, infinities and NaN are returned
    as they are. *)
Definition float_round2 (x : float) : float :=
  match Prim2SF x with
  | S754_finite sgn m e =>
      if -6 <=? e then x
      else
        let hundredths := round_half_even_shift (100 * Z.pos m) (- e) in
        let r := (float_of_int hundredths / 100)%float in
        if sgn then (- r)%float else r
  | _ => x
  end.

(** [round(x, 2)]: an [int] is returned unchanged. *)
Definition round2 (x : Number) : Number :=
  match x with
  | Int z => Int z
  | Float f => Float (float_round2 f)
  end.

End PyNum.

(** ** [get_study_stats] (lines 200-223) *)

Record MoodTracking : Type := mkMoodTracking {
  positive : Z;
  neutral : Z;
  negative : Z
}.

Record StudyStats : Type := mkStudyStats {
  total_study_time_minutes : Z;
  subjects_breakdown : gmap string Z;
  task_completion_rate : PyNum.Number;
  total_notes : Z;
  mood_tracking : MoodTracking
}.

(** [sum(...)] over integers *)
Definition sum (l : list Z) : Z := foldl Z.add 0 l.

(** The loop of lines 204-206, one pass of its body. *)
Definition add_session (subjects_studied : gmap string Z) (session : SessionEntry)
  : gmap string Z :=
  <[ s_subject session :=
       default 0 (subjects_studied !! s_subject session) + s_duration session ]>
    subjects_studied.

Definition get_study_stats : M StudyStats :=
  (s <- HM.get ;;
   let total_study_time := sum (map s_duration (study_sessions s)) in
   let subjects_studied := foldl add_session ∅ (study_sessions s) in
   let tasks_completed :=
     len (List.filter (fun t => String.eqb (t_status t) "completed") (tasks s)) in
   let total_tasks := len (tasks s) in
   let completion_rate :=
     if 0 <? total_tasks
     then PyNum.Float (PyNum.truediv tasks_completed total_tasks * 100)%float
     else PyNum.Int 0 in
   HM.ret
     {| total_study_time_minutes := total_study_time;
        subjects_breakdown := subjects_studied;
        task_completion_rate := PyNum.round2 completion_rate;
        total_notes := len (reminders s);
        mood_tracking :=
          {| positive :=
               len (List.filter (fun m => PyStr.contains "Happy" (m_mood m)) (moods s));
             neutral :=
               len (List.filter (fun m => PyStr.contains "Neutral" (m_mood m)) (moods s));
             negative :=
               len (List.filter (fun m => PyStr.contains "Sad" (m_mood m)) (moods s)) |}
     |})%hm.

(** ** [get_study_tips] (lines 225-230) *)

Record TipsFound : Type := mkTipsFound {
  tf_category : string;
  tf_tips : list string
}.

Definition get_study_tips (category : string) : M TipsFound :=
  (HM.raise_if (negb (dict_contains STUDY_TIPS category))
     (HTTPException 400
        ("Invalid category. Choose from: " +:+ PyStr.join ", " (dict_keys STUDY_TIPS))) ;;
   tips <- HM.lift (dict_getitem STUDY_TIPS category) ;;
   HM.ret {| tf_category := category; tf_tips := tips |})%hm.

(** ** [update_task_status] (lines 232-243) *)

Definition set_status (t : TaskEntry) (st : string) : TaskEntry :=
  {| t_title := t_title t;
     t_description := t_description t;
     t_due_date := t_due_date t;
     t_subject := t_subject t;
     t_priority := t_priority t;
     t_status := st;
     t_id := t_id t;
     t_timestamp := t_timestamp t |}.

(** The loop of lines 238-241: the first entry whose id matches gets the
    new status and is returned, with the list as it then stands; [None]
    when the loop runs to its end. *)
Fixpoint update_first (task_id st : string) (ts : list TaskEntry)
  : option (list TaskEntry * TaskEntry) :=
  match ts with
  | [] => None
  | task :: rest =>
      if String.eqb (t_id task) task_id
      then Some (set_status task st :: rest, set_status task st)
      else match update_first task_id st rest with
           | Some (rest', found) => Some (task :: rest', found)
           | None => None
           end
  end.

Record StatusUpdated : Type := mkStatusUpdated {
  su_message : string;
  su_task : TaskEntry
}.

Definition update_task_status (task_id : string) (task_update : TaskUpdate)
  : M StatusUpdated :=
  (HM.raise_if (negb (PyStr.mem (new_status task_update) TASK_STATUSES))
     (HTTPException 400 "Invalid status") ;;
   s <- HM.get ;;
   match update_first task_id (new_status task_update) (tasks s) with
   | Some (tasks', task) =>
       HM.put (mkStore (reminders s) (moods s) tasks' (study_sessions s)) ;;
       HM.ret {| su_message := "Task status updated"; su_task := task |}
   | None => HM.raise (HTTPException 404 "Task not found")
   end)%hm.

(** ** [all_data] (lines 245-255) *)

Record AllData : Type := mkAllData {
  ad_reminders : list Reminder;
  ad_mood_logs : list MoodEntry;
  ad_tasks : list TaskEntry;
  ad_study_sessions : list SessionEntry;
  ad_available_subjects : list string;
  ad_note_categories : list string
}.

Definition all_data : M AllData :=
  (s <- HM.get ;;
   HM.ret {| ad_reminders := reminders s;
             ad_mood_logs := moods s;
             ad_tasks := tasks s;
             ad_study_sessions := study_sessions s;
             ad_available_subjects := SUBJECTS;
             ad_note_categories := NOTE_CATEGORIES |})%hm.

(** ** Requests and their dispatch *)

Inductive Request : Type :=
| AddNote (note_data : Note)
| MoodCheck (mood_data : MoodText)
| AddTask (task : Task)
| RecordStudySession (session : StudySession)
| GetStudyStats
| GetStudyTips (category : string)
| UpdateTaskStatus (task_id : string) (task_update : TaskUpdate)
| AllDataReq.

Inductive Response : Type :=
| RNoteAdded (r : NoteAdded)
| RMoodChecked (r : MoodChecked)
| RTaskAdded (r : TaskAdded)
| RSessionRecorded (r : SessionRecorded)
| RStudyStats (r : StudyStats)
| RTipsFound (r : TipsFound)
| RStatusUpdated (r : StatusUpdated)
| RAllData (r : AllData).

Definition handle (w : World) (req : Request) : M Response :=
  match req with
  | AddNote note_data => (r <- add_note w note_data ;; HM.ret (RNoteAdded r))%hm
  | MoodCheck mood_data => (r <- mood_check w mood_data ;; HM.ret (RMoodChecked r))%hm
  | AddTask task => (r <- add_task w task ;; HM.ret (RTaskAdded r))%hm
  | RecordStudySession session =>
      (r <- record_study_session w session ;; HM.ret (RSessionRecorded r))%hm
  | GetStudyStats => (r <- get_study_stats ;; HM.ret (RStudyStats r))%hm
  | GetStudyTips category => (r <- get_study_tips category ;; HM.ret (RTipsFound r))%hm
  | UpdateTaskStatus task_id task_update =>
      (r <- update_task_status task_id task_update ;; HM.ret (RStatusUpdated r))%hm
  | AllDataReq => (r <- all_data ;; HM.ret (RAllData r))%hm
  end.

(** The service handles one request after the other; each call meets its
    own world. *)
Fixpoint run (calls : list (World * Request)) (s : Store)
  : Store * list (Res Response) :=
  match calls with
  | [] => (s, [])
  | (w, req) :: calls' =>
      let (s1, r) := handle w req s in
      let (s2, rs) := run calls' s1 in
      (s2, r :: rs)
  end.

(** * The fixed labels and tips the specification names *)

Module Labels.
Definition HAPPY : string := "😊 Happy".
Definition SAD : string := "😞 Sad".
Definition NEUTRAL : string := "😐 Neutral".
Definition MOOD_LABELS : list string := [HAPPY; SAD; NEUTRAL].

Definition TIP_HAPPY_SUBJECTIVE : string := "Great mood! Find a quiet study space".
Definition TIP_HAPPY_OBJECTIVE : string := "Excellent! Study with a friend or study group".
Definition TIP_SAD_TIRED : string := "Take a refreshing break! Take regular short breaks".
Definition TIP_SAD_OTHER : string := "It's okay to feel down. Reward yourself after completing tasks".
Definition TIP_NEUTRAL : string := "Stay focused! Create mind maps for complex topics".

Definition TIP_POMODORO : string := "Use the Pomodoro Technique (25 min study, 5 min break)".
Definition MEMORY_TIPS : list string :=
  [ "Create mind maps for complex topics";
    "Teach the concept to someone else";
    "Use spaced repetition technique";
    "Write summary notes after each study session" ].
End Labels.

(** * Keyword extraction, in the words of the specification *)

Module KeywordSpec.

(** The stop list. *)
Definition STOP_LIST : list Ustr.t :=
  [ Ustr.of_ascii "have"; Ustr.of_ascii "that";
    Ustr.of_ascii "with"; Ustr.of_ascii "this" ].

(** Positions [i .. e-1] of [s] hold a maximal run of word characters:
    the run is not empty, every character in it is a word character, and
    neither the character before it nor the one after it is. *)
Definition maximal_word_run (db : Ustr.Database) (s : Ustr.t) (i e : nat) : Prop :=
  (i < e ≤ length s)%nat ∧
  (∀ k, (i ≤ k < e)%nat → ∃ c, s !! k = Some c ∧ Ustr.is_word db c = true) ∧
  (∀ p c, i = S p → s !! p = Some c → Ustr.is_word db c = false) ∧
  (∀ c, s !! e = Some c → Ustr.is_word db c = false).

(** A token is kept when it is longer than 3 characters and its
    lower-casing is not in the stop list. *)
Definition kept (db : Ustr.Database) (w : Ustr.t) : Prop :=
  (3 < length w)%nat ∧ Ustr.lower db w ∉ STOP_LIST.

#[global] Instance kept_dec db w : Decision (kept db w).
Proof. unfold kept. apply _. Defined.

(** The token at a span of the text: the characters at the positions
    [i], [i+1], ..., [e-1], in this order. *)
Definition token (txt : Ustr.t) (span : nat * nat) : Ustr.t :=
  omap (λ k, txt !! k) (seq (fst span) (snd span - fst span)).

(** Spans in text order, one after the other. *)
Definition in_text_order (runs : list (nat * nat)) : Prop :=
  StronglySorted (λ a b, (snd a < fst b)%nat) runs.

End KeywordSpec.

(** * The records and responses the specification expects *)

Module Expected.

(** Mood label and tip for a sentiment, in the words of the specification. *)
Definition mood_of (db : Ustr.Database) (polarity subjectivity : float)
    (txt : Ustr.t) : string * string :=
  if (0.2 <? polarity)%float
  then (Labels.HAPPY,
        if (0.5 <? subjectivity)%float
        then Labels.TIP_HAPPY_SUBJECTIVE else Labels.TIP_HAPPY_OBJECTIVE)
  else if (polarity <? -0.2)%float
       then (Labels.SAD,
             if Ustr.contains (Ustr.of_ascii "tired") (Ustr.lower db txt)
                || Ustr.contains (Ustr.of_ascii "exhausted") (Ustr.lower db txt)
             then Labels.TIP_SAD_TIRED else Labels.TIP_SAD_OTHER)
       else (Labels.NEUTRAL, Labels.TIP_NEUTRAL).

Definition reminder_of (w : World) (nd : Note) : Reminder :=
  {| r_note := note nd;
     r_keywords := extract_keywords (unicode w) (note nd);
     r_category := category nd;
     r_priority := priority nd;
     r_timestamp := now_isoformat w |}.

Definition note_added (w : World) (nd : Note) : NoteAdded :=
  {| na_status := "Note added ✅";
     na_keywords := extract_keywords (unicode w) (note nd);
     na_note := note nd;
     na_category := category nd;
     na_priority := priority nd |}.

Definition mood_entry_of (w : World) (md : MoodText) : MoodEntry :=
  let scores := sentiment w (text md) in
  {| m_text := text md;
     m_mood := fst (mood_of (unicode w) (fst scores) (snd scores) (text md));
     m_tip := snd (mood_of (unicode w) (fst scores) (snd scores) (text md));
     m_timestamp := now_isoformat w |}.

Definition mood_checked (w : World) (md : MoodText) : MoodChecked :=
  {| mc_mood := m_mood (mood_entry_of w md);
     mc_tip := m_tip (mood_entry_of w md);
     mc_text := text md |}.

(** The entry of a task added when the store holds [n] tasks. *)
Definition task_entry_of (w : World) (t : Task) (n : nat) : TaskEntry :=
  {| t_title := title t;
     t_description := description t;
     t_due_date := due_date t;
     t_subject := subject t;
     t_priority := task_priority t;
     t_status := status t;
     t_id := str (Z.of_nat n + 1);
     t_timestamp := now_isoformat w |}.

Definition session_entry_of (w : World) (ss : StudySession) : SessionEntry :=
  {| s_subject := session_subject ss;
     s_duration := duration ss;
     s_goals := goals ss;
     s_completed_goals := completed_goals ss;
     s_timestamp := now_isoformat w |}.

Definition session_recorded (ss : StudySession) (tip : string) : SessionRecorded :=
  {| sr_status := "Study session recorded ✅";
     sr_tip := tip;
     sr_subject := session_subject ss;
     sr_duration := duration ss;
     sr_goals := goals ss;
     sr_completed_goals := completed_goals ss |}.

Definition with_reminder (s : Store) (r : Reminder) : Store :=
  mkStore (reminders s ++ [r]) (moods s) (tasks s) (study_sessions s).
Definition with_mood (s : Store) (m : MoodEntry) : Store :=
  mkStore (reminders s) (moods s ++ [m]) (tasks s) (study_sessions s).
Definition with_task (s : Store) (t : TaskEntry) : Store :=
  mkStore (reminders s) (moods s) (tasks s ++ [t]) (study_sessions s).
Definition with_session (s : Store) (e : SessionEntry) : Store :=
  mkStore (reminders s) (moods s) (tasks s) (study_sessions s ++ [e]).
Definition with_tasks (s : Store) (ts : list TaskEntry) : Store :=
  mkStore (reminders s) (moods s) ts (study_sessions s).

(** The tip as lines 189-192 compute it. *)
Definition session_tip (w : World) (d : Z) : Res string :=
  if 120 <? d then study_tip "focus" 1
  else (memory <- dict_getitem STUDY_TIPS "memory" ;;
        list_getitem memory (randint w 0 (len memory - 1)))%res.

(** The session tip: the fixed one above two hours, otherwise one of the
    memory tips. *)
Definition session_tip_ok (d : Z) (tip : string) : Prop :=
  if 120 <? d then tip = Labels.TIP_POMODORO else tip ∈ Labels.MEMORY_TIPS.

(** A [ValidationError] (status 400) or a [NotFoundError] (status 404). *)
Definition ValidationError (e : PyError) : Prop :=
  ∃ detail, e = HTTPException 400 detail.
Definition NotFoundError (e : PyError) : Prop :=
  ∃ detail, e = HTTPException 404 detail.

(** [t'] is [t] with the status [st] written into it: the status is the
    new one, every other field is as it was. *)
Definition status_written (t : TaskEntry) (st : string) (t' : TaskEntry) : Prop :=
  t_status t' = st ∧
  t_title t' = t_title t ∧ t_description t' = t_description t ∧
  t_due_date t' = t_due_date t ∧ t_subject t' = t_subject t ∧
  t_priority t' = t_priority t ∧ t_id t' = t_id t ∧
  t_timestamp t' = t_timestamp t.

(** What a successful call has done: its mutation of the stores and the
    response it returned. *)
Definition committed (w : World) (req : Request) (resp : Response) (s s' : Store)
  : Prop :=
  match req, resp with
  | AddNote nd, RNoteAdded r =>
      s' = with_reminder s (reminder_of w nd) ∧ r = note_added w nd
  | MoodCheck md, RMoodChecked r =>
      s' = with_mood s (mood_entry_of w md) ∧ r = mood_checked w md
  | AddTask t, RTaskAdded r =>
      s' = with_task s (task_entry_of w t (length (tasks s))) ∧
      ta_entry r = task_entry_of w t (length (tasks s))
  | RecordStudySession ss, RSessionRecorded r =>
      s' = with_session s (session_entry_of w ss) ∧
      r = session_recorded ss (sr_tip r) ∧ session_tip_ok (duration ss) (sr_tip r)
  | GetStudyStats, RStudyStats _ => s' = s
  | GetStudyTips c, RTipsFound r =>
      s' = s ∧ tf_category r = c ∧ dict_get STUDY_TIPS c = Some (tf_tips r)
  | UpdateTaskStatus tid u, RStatusUpdated r =>
      ∃ before t after,
        tasks s = before ++ t :: after ∧ (tid ∉ map t_id before) ∧ t_id t = tid ∧
        su_message r = "Task status updated" ∧
        status_written t (new_status u) (su_task r) ∧
        s' = with_tasks s (before ++ su_task r :: after)
  | AllDataReq, RAllData _ => s' = s
  | _, _ => False
  end.

End Expected.

(** * Task ids *)

Module TaskIds.

(** The id a call assigned, when it is a successful [add_task]. *)
Definition added_task_id (r : Res Response) : option string :=
  match r with
  | inr (RTaskAdded a) => Some (t_id (ta_entry a))
  | _ => None
  end.

Definition added_task_ids (rs : list (Res Response)) : list string :=
  omap added_task_id rs.

(** The decimal strings of [first], [first + 1], ... ([count] of them). *)
Definition decimal_ids (first count : nat) : list string :=
  map (λ k, str (Z.of_nat k)) (seq first count).

(** An [add_task] call with valid data: its subject is a known one. *)
Definition valid_add_task (call : World * Request) : bool :=
  match snd call with
  | AddTask t => PyStr.mem (subject t) SUBJECTS
  | _ => false
  end.

End TaskIds.

(** * Statistics, in the words of the specification *)

Module StatsSpec.

(** The sum of a list of integers. *)
Definition total (l : list Z) : Z := foldr Z.add 0 l.

(** The durations of the sessions of one subject. *)
Definition durations_for (subj : string) (sessions : list SessionEntry) : list Z :=
  map s_duration (filter (λ e, s_subject e = subj) sessions).

(** The tasks whose status is "completed". *)
Definition completed (ts : list TaskEntry) : list TaskEntry :=
  filter (λ t, t_status t = "completed") ts.

(** 100 times completed over total, rounded to two decimals, in the
    binary64 arithmetic of the service; the integer 0 without tasks. *)
Definition completion_rate (ts : list TaskEntry) : PyNum.Number :=
  match ts with
  | [] => PyNum.Int 0
  | _ :: _ =>
      PyNum.Float
        (PyNum.float_round2
           (PyNum.truediv (len (completed ts)) (len ts) * 100)%float)
  end.

(** The exact quotient [100 * completed / total] in hundredths, rounded
    to the nearest integer with ties away from zero, or ties to even. *)
Definition hundredths_half_up (completed total : Z) : Z :=
  (2 * 10000 * completed + total) / (2 * total).

Definition hundredths_half_even (completed total : Z) : Z :=
  let q := (10000 * completed) / total in
  let r := (10000 * completed) mod total in
  if 2 * r <? total then q
  else if total <? 2 * r then q + 1
  else if Z.even q then q else q + 1.

(** The double nearest to [h / 100]. *)
Definition double_of_hundredths (h : Z) : float :=
  (PyNum.float_of_int h / 100)%float.

(** The hundredths [round(x, 2)] settles on for a finite [x] below 2^46. *)
Definition hundredths_of (x : float) : Z :=
  match Prim2SF x with
  | S754_finite sgn m e =>
      let h := PyNum.round_half_even_shift (100 * Z.pos m) (- e) in
      if sgn then - h else h
  | _ => 0
  end.

(** With [c] of [t] tasks completed, the rate returned is the double of a
    number of hundredths that is within one half of the exact
    [10000 * c / t]. *)
Definition rate_is_nearest (c t : Z) : bool :=
  let x := (PyNum.truediv c t * 100)%float in
  let h := hundredths_of x in
  (Z.abs (2 * (h * t - 10000 * c)) <=? t)
  && PrimFloat.eqb (PyNum.float_round2 x) (double_of_hundredths h).

End StatsSpec.

(** * The stores after a sequence of calls *)

Module Ledger.
Import Expected.

(** The four operations that add a record. *)
Definition is_add (req : Request) : bool :=
  match req with
  | AddNote _ | MoodCheck _ | AddTask _ | RecordStudySession _ => true
  | _ => false
  end.

(** The store after a successful adding call. *)
Definition appended (w : World) (req : Request) (s : Store) : Store :=
  match req with
  | AddNote nd => with_reminder s (reminder_of w nd)
  | MoodCheck md => with_mood s (mood_entry_of w md)
  | AddTask t => with_task s (task_entry_of w t (length (tasks s)))
  | RecordStudySession ss => with_session s (session_entry_of w ss)
  | _ => s
  end.

Definition succeeded {A} (r : Res A) : bool :=
  match r with
  | inr _ => true
  | inl _ => false
  end.

(** The records the calls of each kind add, in call order. *)
Definition notes_of (calls : list (World * Request)) : list Reminder :=
  omap (λ c, match snd c with
             | AddNote nd => Some (reminder_of (fst c) nd)
             | _ => None
             end) calls.

Definition moods_of (calls : list (World * Request)) : list MoodEntry :=
  omap (λ c, match snd c with
             | MoodCheck md => Some (mood_entry_of (fst c) md)
             | _ => None
             end) calls.

Definition sessions_of (calls : list (World * Request)) : list SessionEntry :=
  omap (λ c, match snd c with
             | RecordStudySession ss => Some (session_entry_of (fst c) ss)
             | _ => None
             end) calls.

(** The task entries, numbered from a store that holds [n] tasks. *)
Fixpoint tasks_of (n : nat) (calls : list (World * Request)) : list TaskEntry :=
  match calls with
  | [] => []
  | c :: rest =>
      match snd c with
      | AddTask t => task_entry_of (fst c) t n :: tasks_of (S n) rest
      | _ => tasks_of n rest
      end
  end.

Definition total_records (s : Store) : nat :=
  (length (reminders s) + length (moods s)
   + length (tasks s) + length (study_sessions s))%nat.

(** The dump [all_data] returns for a store. *)
Definition dump (s : Store) : AllData :=
  {| ad_reminders := reminders s;
     ad_mood_logs := moods s;
     ad_tasks := tasks s;
     ad_study_sessions := study_sessions s;
     ad_available_subjects := SUBJECTS;
     ad_note_categories := NOTE_CATEGORIES |}.

(** The stores a running service can be in. *)
Definition reachable (s : Store) : Prop :=
  ∃ calls, s = fst (run calls initial_store).

(** A mood label contains exactly one of "Happy", "Sad" and "Neutral". *)
Definition one_mood (label : string) : Prop :=
  (PyStr.contains "Happy" label = true ∧ PyStr.contains "Sad" label = false
   ∧ PyStr.contains "Neutral" label = false) ∨
  (PyStr.contains "Happy" label = false ∧ PyStr.contains "Sad" label = true
   ∧ PyStr.contains "Neutral" label = false) ∨
  (PyStr.contains "Happy" label = false ∧ PyStr.contains "Sad" label = false
   ∧ PyStr.contains "Neutral" label = true).

End Ledger.

(** * Example data *)

Module Fixtures.
Definition in_ranges (ranges : list (N * N)) (c : N) : bool :=
  existsb (λ r, (fst r <=? c)%N && (c <=? snd r)%N) ranges.

(** The Unicode database of CPython 3.11 on the code points below 256
    (Basic Latin and Latin-1 Supplement); the code points from 256 on
    are left out: no word characters, no whitespace, no lower-casing. *)
Definition latin1 : Ustr.Database :=
  {| Ustr.is_word :=
       in_ranges [ (48, 57); (65, 90); (95, 95); (97, 122); (170, 170); (178, 179);
                   (181, 181); (185, 186); (188, 190); (192, 214); (216, 246);
                   (248, 255) ]%N;
     Ustr.is_space := in_ranges [ (9, 13); (28, 32); (133, 133); (160, 160) ]%N;
     Ustr.lower :=
       map (λ c, if in_ranges [ (65, 90); (192, 214); (216, 222) ]%N c
                 then (c + 32)%N else c) |}.

(** The same with the capital I with dot above, U+0130: a letter whose
    lower-casing is two code points, the letter i and the combining dot
    above, U+0307, which is no word character. *)
Definition latin1_dotted_I : Ustr.Database :=
  {| Ustr.is_word := λ c, Ustr.is_word latin1 c || (c =? 304)%N;
     Ustr.is_space := Ustr.is_space latin1;
     Ustr.lower :=
       flat_map (λ c, if (c =? 304)%N then [105; 775]%N else Ustr.lower latin1 [c]) |}.

(** A world for examples: a fixed clock, a generator that returns its
    lower bound, a sentiment that reads every text as mildly positive,
    and the Latin-1 part of the Unicode database. *)
Definition world : World :=
  mkWorld "2024-05-01T10:00:00" (λ a _, a) (λ _, (0.5, 0.25)%float) latin1.

(** "café études" and the no-break space U+00A0. *)
Definition cafe_etudes : Ustr.t :=
  [99; 97; 102; 233; 32; 233; 116; 117; 100; 101; 115]%N.
Definition nbsp : Ustr.t := [160]%N.

Definition essay : Task := mkTask "Essay" "Write it" "2024-06-01" "History" 2 "pending".
Definition lab : Task := mkTask "Lab" "Report" "2024-06-02" "Physics" 1 "pending".

(** Two tasks stored, ids "1" and "2". *)
Definition two_tasks : Store :=
  fst (run [(world, AddTask essay); (world, AddTask lab)] initial_store).

(** 160 tasks are added, and the first 23 are then completed. *)
Definition busy_term_calls : list (World * Request) :=
  repeat (world, AddTask essay) 160
  ++ map (λ k, (world, UpdateTaskStatus (str (Z.of_nat k)) (mkTaskUpdate "completed")))
       (seq 1 23).

Definition busy_term : Store := fst (run busy_term_calls initial_store).

(** A day of calls with texts outside ASCII; the second note is a
    no-break space and is rejected. *)
Definition french_day : list (World * Request) :=
  [ (world, AddNote (mkNote cafe_etudes "Homework" (Some 1)));
    (world, AddNote (mkNote nbsp "Homework" None));
    (world, MoodCheck (mkMoodText cafe_etudes));
    (world, AddTask essay);
    (world, RecordStudySession (mkStudySession "Physics" 45 [] [])) ].
End Fixtures.

(** * ASCII text

    On ASCII text the character classes do not depend on the version of
    the Unicode database: the word characters are the letters, the digits
    and the underscore, and lower-casing maps [A-Z] to [a-z] one by one. *)

Module AsciiSpec.

(** A text of ASCII characters only. *)
Definition text (s : Ustr.t) : Prop := Forall (λ c, (c < 128)%N) s.

Definition is_upper (c : N) : bool := (65 <=? c)%N && (c <=? 90)%N.

Definition is_word (c : N) : bool :=
  ((48 <=? c)%N && (c <=? 57)%N) || is_upper c || (c =? 95)%N ||
  ((97 <=? c)%N && (c <=? 122)%N).

Definition lower_char (c : N) : N := if is_upper c then (c + 32)%N else c.

(** The database is the Unicode one on ASCII. *)
Definition agrees (db : Ustr.Database) : Prop :=
  (∀ c, (c < 128)%N → Ustr.is_word db c = is_word c) ∧
  (∀ s, text s → Ustr.lower db s = map lower_char s).

End AsciiSpec.

(** * Well-formed stores and sequences of calls *)

Module StoreSpec.

(** A blank text: every character is whitespace (the empty text
    included). *)
Definition blank (db : Ustr.Database) (s : Ustr.t) : Prop :=
  Forall (λ c, Ustr.is_space db c = true) s.

(** The five tips [mood_check] can give. *)
Definition MOOD_TIPS : list string :=
  [ Labels.TIP_HAPPY_SUBJECTIVE; Labels.TIP_HAPPY_OBJECTIVE;
    Labels.TIP_SAD_TIRED; Labels.TIP_SAD_OTHER; Labels.TIP_NEUTRAL ].

Definition valid_reminder (db : Ustr.Database) (r : Reminder) : Prop :=
  ¬ blank db (r_note r) ∧ r_category r ∈ NOTE_CATEGORIES ∧
  r_keywords r = extract_keywords db (r_note r).

Definition valid_mood (db : Ustr.Database) (m : MoodEntry) : Prop :=
  ¬ blank db (m_text m) ∧ m_mood m ∈ Labels.MOOD_LABELS ∧ m_tip m ∈ MOOD_TIPS.

Definition valid_task (t : TaskEntry) : Prop :=
  t_subject t ∈ SUBJECTS.

Definition valid_session (e : SessionEntry) : Prop :=
  s_subject e ∈ SUBJECTS ∧ 5 ≤ s_duration e ≤ 480.

(** The task at (0-based) position [k] has id [str (k + 1)]. *)
Definition ids_by_position (ts : list TaskEntry) : Prop :=
  map t_id ts = TaskIds.decimal_ids 1 (length ts).

(** What holds of the tasks and the study sessions of a store. *)
Definition well_formed_records (s : Store) : Prop :=
  Forall valid_task (tasks s) ∧
  Forall valid_session (study_sessions s) ∧
  ids_by_position (tasks s).

(** A well-formed store of a service that runs on the Unicode database
    [db]. *)
Definition well_formed (db : Ustr.Database) (s : Store) : Prop :=
  Forall (valid_reminder db) (reminders s) ∧
  Forall (valid_mood db) (moods s) ∧
  well_formed_records s.

(** All calls of a sequence are made on the same Unicode database. *)
Definition on_database (db : Ustr.Database) (calls : list (World * Request)) : Prop :=
  Forall (λ c, unicode (fst c) = db) calls.

(** Two task entries that differ in their status at most: title,
    description, due date, subject, priority, id and timestamp are the
    same. *)
Definition same_but_status (t t' : TaskEntry) : Prop :=
  t_title t' = t_title t ∧ t_description t' = t_description t ∧
  t_due_date t' = t_due_date t ∧ t_subject t' = t_subject t ∧
  t_priority t' = t_priority t ∧ t_id t' = t_id t ∧
  t_timestamp t' = t_timestamp t.

(** Nothing was removed, reordered or rewritten between [s] and [s']: the
    old records open the new lists, the status of a task apart. *)
Definition grown (s s' : Store) : Prop :=
  reminders s `prefix_of` reminders s' ∧
  moods s `prefix_of` moods s' ∧
  (∃ old new, tasks s' = old ++ new ∧ Forall2 same_but_status (tasks s) old) ∧
  study_sessions s `prefix_of` study_sessions s'.

(** The sum of the values of a breakdown. *)
Definition breakdown_total (m : gmap string Z) : Z :=
  map_fold (λ _ v acc, v + acc) 0 m.

(** The calls of a sequence that are answered with a response, not an
    error, when the sequence runs from [s]. *)
Fixpoint accepted (calls : list (World * Request)) (s : Store)
  : list (World * Request) :=
  match calls with
  | [] => []
  | c :: rest =>
      let outcome := handle (fst c) (snd c) s in
      if Ledger.succeeded (snd outcome)
      then c :: accepted rest (fst outcome)
      else accepted rest (fst outcome)
  end.

(** All characters of a text are lower-case ASCII word characters. *)
Definition lower_word (k : Ustr.t) : Prop :=
  Forall (λ c, AsciiSpec.is_word c = true ∧ AsciiSpec.is_upper c = false) k.

End StoreSpec.

(** * The response body of [add_task] as a dictionary (lines 165-171) *)

Module Body.

(** The values of the fields. *)
Inductive Value : Type :=
| VStr (s : string)
| VInt (z : Z).

(** [d[k] = v]: an existing key keeps its place and gets the new value, a
    new key goes last. *)
Fixpoint set (d : Dict Value) (k : string) (v : Value) : Dict Value :=
  match d with
  | [] => [(k, v)]
  | (k', v') :: d' =>
      if String.eqb k' k then (k', v) :: d' else (k', v') :: set d' k v
  end.

(** [{**a, **b}] *)
Definition merge (a b : Dict Value) : Dict Value :=
  foldl (λ d kv, set d (fst kv) (snd kv)) a b.

(** [task.dict()]: the fields in the order the model declares them. *)
Definition task_dict (task : Task) : Dict Value :=
  [ ("title", VStr (title task));
    ("description", VStr (description task));
    ("due_date", VStr (due_date task));
    ("subject", VStr (subject task));
    ("priority", VInt (task_priority task));
    ("status", VStr (status task)) ].

(** [{**task.dict(), "id": str(len(tasks) + 1), "timestamp": ...}] *)
Definition task_entry (w : World) (task : Task) (s : Store) : Dict Value :=
  merge (task_dict task)
    [ ("id", VStr (str (len (tasks s) + 1)));
      ("timestamp", VStr (now_isoformat w)) ].

(** [{"status": "Task added ✅", **task_entry}] *)
Definition add_task_body (w : World) (task : Task) (s : Store) : Dict Value :=
  merge [("status", VStr "Task added ✅")] (task_entry w task s).

(** A stored task entry as a dictionary. *)
Definition of_entry (e : TaskEntry) : Dict Value :=
  [ ("title", VStr (t_title e));
    ("description", VStr (t_description e));
    ("due_date", VStr (t_due_date e));
    ("subject", VStr (t_subject e));
    ("priority", VInt (t_priority e));
    ("status", VStr (t_status e));
    ("id", VStr (t_id e));
    ("timestamp", VStr (t_timestamp e)) ].

End Body.

(** * The matcher finds the maximal runs *)

Module ReFacts.
Import Re KeywordSpec.

Section matcher.
Context (db : Ustr.Database).

Local Abbreviation is_word_char := (Ustr.is_word db).
Local Abbreviation word_at := (Re.word_at db).
Local Abbreviation word_before := (Re.word_before db).
Local Abbreviation boundary := (Re.boundary db).
Local Abbreviation word_prefix_len := (Re.word_prefix_len db).
Local Abbreviation run_length := (Re.run_length db).
Local Abbreviation backtrack := (Re.backtrack db).
Local Abbreviation match_at := (Re.match_at db).
Local Abbreviation scan := (Re.scan db).
Local Abbreviation maximal_word_run := (KeywordSpec.maximal_word_run db).

Lemma word_at_true s k :
  word_at s k = true ↔ ∃ c, s !! k = Some c ∧ is_word_char c = true.
Proof.
  unfold Re.word_at. destruct (s !! k) as [c|]; split.
  - intros H. by exists c.
  - by intros (c' & [= <-] & H).
  - discriminate.
  - by intros (c' & ? & _).
Qed.

Lemma word_at_false s k :
  word_at s k = false ↔ ∀ c, s !! k = Some c → is_word_char c = false.
Proof.
  unfold Re.word_at. destruct (s !! k) as [c|]; split.
  - by intros H c' [= <-].
  - intros H. by apply H.
  - by intros _ c' ?.
  - done.
Qed.

Lemma word_at_length s k : word_at s k = true → (k < length s)%nat.
Proof.
  intros (c & Hc & _)%word_at_true. by eapply lookup_lt_Some.
Qed.

(** A maximal run, in terms of the matcher's tests. *)
Lemma maximal_word_run_alt s i e :
  maximal_word_run s i e ↔
  (i < e)%nat ∧ (∀ k, (i ≤ k < e)%nat → word_at s k = true) ∧
  word_before s i = false ∧ word_at s e = false.
Proof.
  unfold KeywordSpec.maximal_word_run. split.
  - intros ([Hie Hlen] & Hin & Hbefore & Hafter). split_and!; [done| | |].
    + intros k Hk. apply word_at_true. auto.
    + destruct i as [|p]; [done|]. simpl. apply word_at_false. eauto.
    + by apply word_at_false.
  - intros (Hie & Hin & Hbefore & Hafter). split_and!; [done| | | |].
    + assert (word_at s (e - 1) = true) as Hl by (apply Hin; lia).
      apply word_at_length in Hl. lia.
    + intros k Hk. apply word_at_true. auto.
    + intros p c -> Hp. simpl in Hbefore.
      exact (proj1 (word_at_false s p) Hbefore c Hp).
    + by apply word_at_false.
Qed.

Lemma word_at_cons c l k : word_at (c :: l) (S k) = word_at l k.
Proof. reflexivity. Qed.

Lemma word_prefix_len_spec l :
  (∀ k, (k < word_prefix_len l)%nat → word_at l k = true) ∧
  word_at l (word_prefix_len l) = false.
Proof.
  induction l as [|c l [IHin IHend]]; simpl.
  - split; [lia | done].
  - destruct (is_word_char c) eqn:Hc.
    + split; [|by rewrite word_at_cons].
      intros [|k] Hk; [by unfold Re.word_at; simpl | rewrite word_at_cons; apply IHin; lia].
    + split; [lia | by unfold Re.word_at; simpl].
Qed.

Lemma word_at_drop s pos k : word_at (drop pos s) k = word_at s (pos + k).
Proof. unfold Re.word_at. by rewrite lookup_drop. Qed.

Lemma run_length_spec s pos :
  (∀ k, (pos ≤ k < pos + run_length s pos)%nat → word_at s k = true) ∧
  word_at s (pos + run_length s pos) = false.
Proof.
  unfold Re.run_length.
  destruct (word_prefix_len_spec (drop pos s)) as [Hin Hend]. split.
  - intros k Hk. replace k with (pos + (k - pos))%nat by lia.
    rewrite <-word_at_drop. apply Hin. lia.
  - by rewrite <-word_at_drop.
Qed.

(** The greedy attempt already ends on a boundary: no character is given
    back. *)
Lemma backtrack_full s pos n :
  (0 < n)%nat →
  word_at s (pos + n - 1) = true → word_at s (pos + n) = false →
  backtrack s pos n = Some (pos + n)%nat.
Proof.
  intros Hn Hlast Hend. destruct n as [|n]; [lia|]. simpl.
  unfold Re.boundary.
  replace (pos + S n)%nat with (S (pos + n)) in * by lia. simpl.
  replace (S (pos + n) - 1)%nat with (pos + n)%nat in Hlast by lia.
  by rewrite Hlast, Hend.
Qed.

Lemma match_at_Some s pos e :
  match_at s pos = Some e →
  word_before s pos = false ∨ word_at s pos = false →
  maximal_word_run s pos e.
Proof.
  unfold Re.match_at. destruct (boundary s pos) eqn:Hb; [|done].
  destruct (run_length_spec s pos) as [Hin Hend].
  destruct (run_length s pos) as [|n] eqn:Hn; [done|].
  rewrite backtrack_full; [|lia| |done].
  2:{ apply Hin. lia. }
  intros [= <-] Hinv. apply maximal_word_run_alt.
  assert (word_at s pos = true) as Hpos by (apply Hin; lia).
  split_and!; [lia|done| |done].
  destruct Hinv as [?|?]; congruence.
Qed.

Lemma match_at_None s pos :
  match_at s pos = None →
  word_before s pos = false ∨ word_at s pos = false →
  word_at s pos = false.
Proof.
  unfold Re.match_at, Re.boundary. intros Hm Hinv.
  destruct (word_at s pos) eqn:Hpos; [|done].
  destruct Hinv as [Hbefore|?]; [|done]. rewrite Hbefore in Hm. simpl in Hm.
  destruct (run_length_spec s pos) as [Hin Hend].
  destruct (run_length s pos) as [|n] eqn:Hn.
  - rewrite Nat.add_0_r in Hend. congruence.
  - rewrite backtrack_full in Hm; [done|lia| |done]. apply Hin. lia.
Qed.

Lemma maximal_word_run_end_unique s i e e' :
  maximal_word_run s i e → maximal_word_run s i e' → e = e'.
Proof.
  intros (He & Hin & _ & Hend)%maximal_word_run_alt
         (He' & Hin' & _ & Hend')%maximal_word_run_alt.
  destruct (Nat.lt_trichotomy e e') as [Hlt|[?|Hlt]]; [|done|].
  - rewrite Hin' in Hend by lia. done.
  - rewrite Hin in Hend' by lia. done.
Qed.

(** What [scan] returns from a position that is not inside a run. *)
Lemma scan_spec fuel : ∀ s pos,
  (length s + 1 ≤ fuel + pos)%nat →
  word_before s pos = false ∨ word_at s pos = false →
  (∀ i e, (i, e) ∈ scan fuel s pos ↔ (pos ≤ i)%nat ∧ maximal_word_run s i e) ∧
  in_text_order (scan fuel s pos).
Proof.
  induction fuel as [|fuel IH]; intros s pos Hfuel Hinv; simpl.
  - split; [|constructor]. intros i e. split; [by intros ?%elem_of_nil|].
    intros [Hi ([? ?] & _)]. lia.
  - destruct (Nat.ltb_spec (length s) pos) as [Hout|Hin].
    { split; [|constructor]. intros i e. split; [by intros ?%elem_of_nil|].
      intros [Hi ([? ?] & _)]. lia. }
    destruct (match_at s pos) as [e0|] eqn:Hm.
    + pose proof (match_at_Some _ _ _ Hm Hinv) as Hrun.
      pose proof Hrun as (He0 & Hin0 & _ & Hend0)%maximal_word_run_alt.
      destruct (Nat.eqb_spec e0 pos) as [?|_]; [lia|].
      destruct (IH s e0) as [IHmem IHsorted]; [lia|by right|].
      split.
      * intros i e. rewrite elem_of_cons, IHmem. split.
        -- intros [[= -> ->]|[Hi Hr]]; [done|]. split; [lia|done].
        -- intros [Hi Hr].
           destruct (decide (i = pos)) as [->|Hne].
           { left. f_equal. by eapply maximal_word_run_end_unique. }
           right. split; [|done].
           destruct (Nat.le_gt_cases e0 i) as [?|Hlt]; [done|].
           apply maximal_word_run_alt in Hr as (_ & _ & Hbefore & _).
           destruct i as [|p]; [lia|]. simpl in Hbefore.
           rewrite Hin0 in Hbefore by lia. done.
      * constructor; [done|]. apply Forall_forall. intros [i e] Hie.
        apply IHmem in Hie as [Hi (? & Hin' & _)%maximal_word_run_alt]. simpl.
        destruct (decide (i = e0)) as [->|]; [|lia].
        rewrite Hin' in Hend0 by lia. done.
    + pose proof (match_at_None _ _ Hm Hinv) as Hpos.
      destruct (IH s (S pos)) as [IHmem IHsorted]; [lia|by left|].
      split; [|done].
      intros i e. rewrite IHmem. split.
      * intros [Hi Hr]. split; [lia|done].
      * intros [Hi Hr]. split; [|done].
        destruct (decide (i = pos)) as [->|]; [|lia].
        apply maximal_word_run_alt in Hr as (? & Hin' & _).
        rewrite Hin' in Hpos by lia. done.
Qed.
End matcher.

End ReFacts.

Module KeywordFacts.
Import Re KeywordSpec ReFacts.

Lemma mem_elem_of x l : PyStr.mem x l = true ↔ x ∈ l.
Proof.
  unfold PyStr.mem. rewrite existsb_exists. split.
  - intros (y & Hy%list_elem_of_In & ->%String.eqb_eq). done.
  - intros Hx. exists x. split; [by apply list_elem_of_In | apply String.eqb_refl].
Qed.

Lemma mem_not_elem_of x l : PyStr.mem x l = false ↔ x ∉ l.
Proof.
  rewrite <-mem_elem_of. destruct (PyStr.mem x l); split; congruence.
Qed.

(** [==] on texts is equality of the code points. *)
Lemma text_eqb_eq : ∀ a b, Ustr.eqb a b = true ↔ a = b.
Proof.
  induction a as [|x a IH]; intros [|y b]; simpl; try (split; [discriminate|done]);
    [done|].
  rewrite andb_true_iff, N.eqb_eq, IH. split; [by intros [-> ->]|by intros [= -> ->]].
Qed.

Lemma text_mem_elem_of x l : Ustr.mem x l = true ↔ x ∈ l.
Proof.
  unfold Ustr.mem. rewrite existsb_exists. split.
  - intros (y & Hy%list_elem_of_In & ->%text_eqb_eq). done.
  - intros Hx. exists x. split; [by apply list_elem_of_In | by apply text_eqb_eq].
Qed.

Lemma text_mem_not_elem_of x l : Ustr.mem x l = false ↔ x ∉ l.
Proof.
  rewrite <-text_mem_elem_of. destruct (Ustr.mem x l); split; congruence.
Qed.

(** The list of line 105 is the stop list. *)
Lemma stop_words_stop_list : STOP_WORDS = STOP_LIST.
Proof. reflexivity. Qed.

Lemma keep_test_kept db w :
  (3 <? Ustr.len w) && negb (Ustr.mem (Ustr.lower db w) STOP_WORDS) = true
  ↔ kept db w.
Proof.
  unfold kept, Ustr.len.
  rewrite andb_true_iff, negb_true_iff, text_mem_not_elem_of, stop_words_stop_list.
  rewrite Z.ltb_lt. split; intros [? ?]; split; (lia || done).
Qed.

(** The slice [s[i:e]] holds the characters at the positions [i] to
    [e-1]. *)
Lemma take_drop_lookups (s : Ustr.t) : ∀ n i,
  take n (drop i s) = omap (λ k, s !! k) (seq i n).
Proof.
  induction n as [|n IH]; intros i; [by rewrite take_0|].
  cbn [seq omap list_omap]. rewrite <-IH.
  destruct (s !! i) as [c|] eqn:Hc.
  - by rewrite (drop_S _ _ _ Hc).
  - apply lookup_ge_None in Hc.
    rewrite (drop_ge s i), (drop_ge s (S i)) by lia. by rewrite !take_nil.
Qed.

Lemma slice_token s span : slice s span = token s span.
Proof. unfold slice, token. apply take_drop_lookups. Qed.

(** A comprehension [[f x for x in l if c x]] filters, then maps. *)
Lemma comprehension_filter_map {A B} (c : A → bool) (P : A → Prop)
    `{!∀ x, Decision (P x)} (f : A → B) (l : list A) :
  (∀ x, c x = true ↔ P x) →
  flat_map (λ x, if c x then [f x] else []) l = map f (filter P l).
Proof.
  intros Hc. induction l as [|x l IH]; [done|]. simpl. rewrite IH.
  destruct (c x) eqn:Hx.
  - rewrite filter_cons_True by (by apply Hc). done.
  - rewrite filter_cons_False; [done|]. rewrite <-Hc. congruence.
Qed.

(** The keywords, by the maximal runs of the text. *)
Lemma extract_keywords_runs db txt :
  (∀ i e, (i, e) ∈ spans db txt ↔ maximal_word_run db txt i e) ∧
  in_text_order (spans db txt) ∧
  extract_keywords db txt
  = map (Ustr.lower db) (filter (kept db) (map (token txt) (spans db txt))).
Proof.
  destruct (scan_spec db (S (length txt)) txt 0) as [Hmem Hsorted]; [lia|by left|].
  split_and!; [|done|].
  - intros i e. unfold spans. rewrite Hmem. split; [by intros [_ ?]|].
    intros ?. split; [lia|done].
  - unfold extract_keywords, findall_words.
    rewrite (map_ext _ _ (slice_token txt)).
    apply comprehension_filter_map, keep_test_kept.
Qed.

End KeywordFacts.

(** * Mood classification *)

Module MoodFacts.

(** No float is above 0.2 and below -0.2. *)
Lemma thresholds_exclusive (p : float) :
  (0.2 <? p)%float = true → (p <? -0.2)%float = false.
Proof.
  rewrite !ltb_spec.
  set (hi := Prim2SF 0.2). vm_compute in hi. subst hi.
  set (lo := Prim2SF (-0.2)). vm_compute in lo. subst lo.
  unfold SFltb, SFcompare.
  destruct (Prim2SF p) as [ [] | [] | | [] m e]; try discriminate; try reflexivity.
Qed.

End MoodFacts.

(** * Blank texts, [strip] and [in] *)

Module StripFacts.
Import Ustr StoreSpec.

Lemma lstrip_nil db l :
  lstrip db l = [] ↔ Forall (λ c, is_space db c = true) l.
Proof.
  induction l as [|c l IH]; simpl; [by split|].
  destruct (is_space db c) eqn:Hc.
  - rewrite IH. split; [by constructor|]. by intros [_ ?]%Forall_cons.
  - split; [done|]. intros [? _]%Forall_cons. congruence.
Qed.

(** What [lstrip] leaves is a suffix, so blank when the whole is. *)
Lemma lstrip_blank db l :
  Forall (λ c, is_space db c = true) (lstrip db l) →
  Forall (λ c, is_space db c = true) l.
Proof.
  induction l as [|c l IH]; simpl; [done|].
  destruct (is_space db c) eqn:Hc; [|done].
  intros H. constructor; [done|]. by apply IH.
Qed.

Lemma lstrip_suffix db l : lstrip db l `suffix_of` l.
Proof.
  induction l as [|c l IH]; simpl; [done|].
  destruct (is_space db c); [|done]. by apply suffix_cons_r.
Qed.

(** [s.strip()] is empty exactly when [s] is blank. *)
Lemma strip_empty_iff_blank db s : truthy (strip db s) = false ↔ blank db s.
Proof.
  unfold strip, blank.
  assert (∀ l : Ustr.t, truthy l = false ↔ l = []) as Htruthy
    by (intros [|? ?]; by split).
  rewrite Htruthy. split.
  - intros Hrev. apply lstrip_blank with (db := db).
    assert (lstrip db (rev (lstrip db s)) = []) as Hl.
    { destruct (lstrip db (rev (lstrip db s))) as [|c l]; [done|].
      simpl in Hrev. by destruct (rev l). }
    apply lstrip_nil in Hl. apply Forall_rev in Hl.
    by rewrite rev_involutive in Hl.
  - intros Hb. apply lstrip_nil in Hb. by rewrite Hb.
Qed.

Lemma strip_truthy_iff_not_blank db s :
  truthy (strip db s) = true ↔ ¬ blank db s.
Proof.
  rewrite <-strip_empty_iff_blank. destruct (truthy (strip db s)); split; congruence.
Qed.

Lemma starts_with_spec : ∀ p l,
  starts_with p l = true ↔ ∃ rest, l = p ++ rest.
Proof.
  induction p as [|a p IH]; intros l; simpl.
  - split; [by exists l|done].
  - destruct l as [|b l]; [split; [done|by intros [? ?]]|].
    destruct (N.eqb_spec a b) as [->|Hne].
    + rewrite IH. split; [intros [rest ->]; by exists rest|].
      intros [rest [= ->]]. by exists rest.
    + split; [done|]. intros [rest [= -> _]]. done.
Qed.

(** [sub in s] holds exactly when [sub] occurs in [s]. *)
Lemma contains_spec p : ∀ l,
  contains p l = true ↔ ∃ before after, l = before ++ p ++ after.
Proof.
  induction l as [|b l IH]; simpl; rewrite orb_true_iff, starts_with_spec.
  - split.
    + intros [[rest ->]|?]; [|done]. by exists [], rest.
    + intros ([|? ?] & after & H); [|done]. left. by exists after.
  - rewrite IH. split.
    + intros [[rest ->]|(before & after & ->)]; [by exists [], rest|].
      by exists (b :: before), after.
    + intros ([|x before] & after & H).
      * left. by exists after.
      * right. injection H as -> ->. by exists before, after.
Qed.

End StripFacts.

(** * The handlers, unfolded *)

Module HandlerFacts.
Import Expected.

(** Closes the goal of a call rejected with status 400 before any store
    was touched. *)
Ltac rejected_400 :=
  simpl; split; [reflexivity | left; eexists; reflexivity].

Lemma classify_mood_eq db p sb txt :
  classify_mood db p sb txt = inr (mood_of db p sb txt).
Proof.
  unfold classify_mood, mood_of.
  destruct (0.2 <? p)%float.
  - destruct (0.5 <? sb)%float; reflexivity.
  - destruct (p <? -0.2)%float; [|reflexivity].
    destruct (_ || _); reflexivity.
Qed.

Lemma add_note_eq w nd s :
  add_note w nd s =
  if negb (Ustr.truthy (Ustr.strip (unicode w) (note nd)))
  then (s, inl (HTTPException 400 "Note cannot be empty"))
  else if negb (PyStr.mem (category nd) NOTE_CATEGORIES)
       then (s, inl (HTTPException 400
                       ("Invalid category. Choose from: "
                        ++ PyStr.join ", " NOTE_CATEGORIES)))
       else (with_reminder s (reminder_of w nd), inr (note_added w nd)).
Proof.
  unfold add_note, HM.bind, HM.raise_if.
  destruct (negb (Ustr.truthy _)); [done|].
  destruct (negb (PyStr.mem _ _)); done.
Qed.

Lemma mood_check_eq w md s :
  mood_check w md s =
  if negb (Ustr.truthy (Ustr.strip (unicode w) (text md)))
  then (s, inl (HTTPException 400 "Text cannot be empty"))
  else (with_mood s (mood_entry_of w md), inr (mood_checked w md)).
Proof.
  unfold mood_check, HM.bind, HM.raise_if, HM.lift.
  destruct (negb (Ustr.truthy _)); [done|].
  unfold HM.ret at 1. rewrite classify_mood_eq. done.
Qed.

Lemma add_task_eq w t s :
  add_task w t s =
  if negb (PyStr.mem (subject t) SUBJECTS)
  then (s, inl (HTTPException 400
                  ("Invalid subject. Choose from: " ++ PyStr.join ", " SUBJECTS)))
  else (with_task s (task_entry_of w t (length (tasks s))),
        inr {| ta_entry := task_entry_of w t (length (tasks s)) |}).
Proof.
  unfold add_task, HM.bind, HM.raise_if.
  destruct (negb (PyStr.mem _ _)); done.
Qed.

Lemma record_study_session_eq w ss s :
  record_study_session w ss s =
  if negb (PyStr.mem (session_subject ss) SUBJECTS)
  then (s, inl (HTTPException 400
                  ("Invalid subject. Choose from: " ++ PyStr.join ", " SUBJECTS)))
  else if (duration ss <? 5) || (480 <? duration ss)
       then (s, inl (HTTPException 400 "Duration must be between 5 and 480 minutes"))
       else (with_session s (session_entry_of w ss),
             match session_tip w (duration ss) with
             | inl e => inl e
             | inr tip => inr (session_recorded ss tip)
             end).
Proof.
  unfold record_study_session, HM.bind, HM.raise_if, HM.lift.
  destruct (negb (PyStr.mem _ _)); [done|].
  destruct (_ || _); [done|]. unfold HM.ret at 1 2. unfold HM.get, HM.put.
  fold (session_tip w (duration ss)).
  destruct (session_tip w (duration ss)); done.
Qed.

Lemma list_getitem_in_range {A} (l : list A) (i : Z) :
  0 ≤ i < len l → ∃ x, list_getitem l i = inr x ∧ x ∈ l.
Proof.
  unfold len, list_getitem. intros Hi.
  destruct (Z.ltb_spec i 0) as [?|_]; [lia|].
  destruct (Z.ltb_spec i 0) as [?|_]; [lia|].
  destruct (Z.leb_spec (Z.of_nat (length l)) i) as [?|_]; [lia|]. simpl.
  destruct (l !! Z.to_nat i) as [x|] eqn:Hx.
  - exists x. split; [done|]. by eapply list_elem_of_lookup_2.
  - apply lookup_ge_None in Hx. lia.
Qed.

Lemma session_tip_in_range w d :
  randint_in_range w →
  ∃ tip, session_tip w d = inr tip ∧ session_tip_ok d tip.
Proof.
  intros Hrand. unfold session_tip, session_tip_ok.
  destruct (120 <? d).
  - by exists Labels.TIP_POMODORO.
  - change (dict_getitem STUDY_TIPS "memory") with (@inr PyError _ Labels.MEMORY_TIPS).
    simpl ResM.bind.
    apply list_getitem_in_range.
    change (len Labels.MEMORY_TIPS) with 4.
    specialize (Hrand 0 (4 - 1)). lia.
Qed.

Lemma get_study_tips_eq c s :
  get_study_tips c s =
  match dict_get STUDY_TIPS c with
  | Some tips => (s, inr {| tf_category := c; tf_tips := tips |})
  | None => (s, inl (HTTPException 400
                       ("Invalid category. Choose from: "
                        ++ PyStr.join ", " (dict_keys STUDY_TIPS))))
  end.
Proof.
  unfold get_study_tips, HM.bind, HM.raise_if, HM.lift, dict_contains, dict_getitem.
  destruct (dict_get STUDY_TIPS c); done.
Qed.

Lemma update_task_status_eq id u s :
  update_task_status id u s =
  if negb (PyStr.mem (new_status u) TASK_STATUSES)
  then (s, inl (HTTPException 400 "Invalid status"))
  else match update_first id (new_status u) (tasks s) with
       | Some (tasks', task) =>
           (with_tasks s tasks',
            inr {| su_message := "Task status updated"; su_task := task |})
       | None => (s, inl (HTTPException 404 "Task not found"))
       end.
Proof.
  unfold update_task_status, HM.bind, HM.raise_if.
  destruct (negb (PyStr.mem _ _)); [done|].
  unfold HM.ret at 1, HM.get.
  destruct (update_first _ _ _) as [[? ?]|]; done.
Qed.

(** The loop of [update_task_status], by the position of the first match. *)
Lemma update_first_Some tid st ts ts' found :
  update_first tid st ts = Some (ts', found) →
  ∃ before t after,
    ts = before ++ t :: after ∧ (tid ∉ map t_id before) ∧ t_id t = tid ∧
    found = set_status t st ∧ ts' = before ++ found :: after.
Proof.
  revert ts' found. induction ts as [|t ts IH]; intros ts' found; simpl; [done|].
  destruct (String.eqb_spec (t_id t) tid) as [Heq|Hne].
  - intros [= <- <-]. exists [], t, ts. split_and!; try done. apply not_elem_of_nil.
  - destruct (update_first tid st ts) as [[rest' f]|]; [|done].
    intros [= <- <-].
    destruct (IH _ _ eq_refl) as (before & t0 & after & -> & Hnot & Hid & -> & ->).
    exists (t :: before), t0, after. split_and!; try done.
    simpl. apply not_elem_of_cons. split; [congruence|done].
Qed.

Lemma update_first_None tid st ts :
  update_first tid st ts = None ↔ tid ∉ map t_id ts.
Proof.
  induction ts as [|t ts IH]; simpl.
  - split; [intros _; apply not_elem_of_nil|done].
  - rewrite not_elem_of_cons.
    destruct (String.eqb_spec (t_id t) tid) as [Heq|Hne].
    + split; [done|]. intros [Hne _]. congruence.
    + destruct (update_first tid st ts) as [[? ?]|].
      * split; [done|]. intros [_ Hn]. by apply IH in Hn.
      * split; [|done]. intros _. split; [congruence|]. by apply IH.
Qed.

(** The assignment of line 240 writes the status and nothing else. *)
Lemma set_status_written t st : status_written t st (set_status t st).
Proof. unfold status_written. by split_and!. Qed.

End HandlerFacts.

(** * Keyword extraction *)

(** C1: for every text, the keywords [add_note] extracts are the maximal
    runs of word characters of the text, taken in text order and each once
    per occurrence, of which those longer than 3 characters whose
    lower-casing is not in the stop list are kept, lower-cased; nothing is
    deduplicated.  Word characters, length and lower-casing are those of
    Python's [str]: code points, classified by the Unicode database.  These
    are the keywords a successful [add_note] returns and stores. *)
Theorem extract_keywords_maximal_runs (db : Ustr.Database) (txt : Ustr.t) :
  ∃ runs : list (nat * nat),
    (∀ i e, (i, e) ∈ runs ↔ KeywordSpec.maximal_word_run db txt i e) ∧
    KeywordSpec.in_text_order runs ∧
    extract_keywords db txt
    = map (Ustr.lower db)
        (filter (KeywordSpec.kept db) (map (KeywordSpec.token txt) runs)) ∧
    (∀ w category priority s s' response,
       unicode w = db →
       add_note w (mkNote txt category priority) s = (s', inr response) →
       na_keywords response
       = map (Ustr.lower db)
           (filter (KeywordSpec.kept db) (map (KeywordSpec.token txt) runs)) ∧
       ∃ r, reminders s' = reminders s ++ [r] ∧ r_keywords r = na_keywords response).
Proof.
  exists (Re.spans db txt).
  destruct (KeywordFacts.extract_keywords_runs db txt) as (Hmem & Hsorted & Hkeys).
  split_and!; [done|done|done|].
  intros w category priority s s' response <-. rewrite HandlerFacts.add_note_eq.
  destruct (negb _); [discriminate|]. destruct (negb _); [discriminate|].
  intros [= <- <-]. split; [exact Hkeys|]. by eexists.
Qed.

Example extract_keywords_example :
  extract_keywords Fixtures.latin1
    (Ustr.of_ascii "Study chapter 5 for exam tomorrow; I HAVE this_one and That, study")
  = map Ustr.of_ascii ["study"; "chapter"; "exam"; "tomorrow"; "this_one"; "study"] ∧
  Re.findall_words Fixtures.latin1 (Ustr.of_ascii "a_b-c  dd9!")
  = map Ustr.of_ascii ["a_b"; "c"; "dd9"] ∧
  extract_keywords Fixtures.latin1 (Ustr.of_ascii "with WITH This that have") = [] ∧
  extract_keywords Fixtures.latin1 [] = [].
Proof. repeat split; vm_compute; reflexivity. Qed.

(** Letters outside ASCII are word characters, count once each and are
    lower-cased: "CAFÉ Études" has the keywords "café" and "études". *)
Example extract_keywords_latin1_example :
  extract_keywords Fixtures.latin1 Fixtures.cafe_etudes
  = [[99; 97; 102; 233]; [233; 116; 117; 100; 101; 115]]%N ∧
  extract_keywords Fixtures.latin1 [67; 65; 70; 201; 32; 201; 116; 117; 100; 101; 115]%N
  = [[99; 97; 102; 233]; [233; 116; 117; 100; 101; 115]]%N ∧
  extract_keywords Fixtures.latin1 [233; 116; 233]%N = [].
Proof. repeat split; vm_compute; reflexivity. Qed.

(** C2: [mood_check] classifies with strict thresholds.  For every text
    that is not blank, with the polarity and the subjectivity the sentiment
    analysis gives for it, the mood and the tip that the handler returns
    and stores are: above 0.2 Happy (tip by subjectivity above 0.5), below
    -0.2 Sad (tip by "tired" or "exhausted" occurring in the lower-cased
    text), and for every other polarity, 0.2 and -0.2 themselves included,
    Neutral with its one tip.  They depend on nothing but the polarity, the
    subjectivity and the text. *)
Theorem classify_mood_thresholds
    (db : Ustr.Database) (polarity subjectivity : float) (txt : Ustr.t) :
  ((0.2 <? polarity)%float = true →
     classify_mood db polarity subjectivity txt
     = inr (Labels.HAPPY,
            if (0.5 <? subjectivity)%float
            then Labels.TIP_HAPPY_SUBJECTIVE else Labels.TIP_HAPPY_OBJECTIVE)) ∧
  ((polarity <? -0.2)%float = true →
     classify_mood db polarity subjectivity txt
     = inr (Labels.SAD,
            if Ustr.contains (Ustr.of_ascii "tired") (Ustr.lower db txt)
               || Ustr.contains (Ustr.of_ascii "exhausted") (Ustr.lower db txt)
            then Labels.TIP_SAD_TIRED else Labels.TIP_SAD_OTHER)) ∧
  ((0.2 <? polarity)%float = false → (polarity <? -0.2)%float = false →
     classify_mood db polarity subjectivity txt
     = inr (Labels.NEUTRAL, Labels.TIP_NEUTRAL)) ∧
  classify_mood db 0.2 subjectivity txt = inr (Labels.NEUTRAL, Labels.TIP_NEUTRAL) ∧
  classify_mood db (-0.2) subjectivity txt = inr (Labels.NEUTRAL, Labels.TIP_NEUTRAL) ∧
  (∀ word text, Ustr.contains word text = true
                ↔ ∃ before after, text = before ++ word ++ after) ∧
  (∀ (w : World) (s : Store),
     unicode w = db → sentiment w txt = (polarity, subjectivity) →
     ¬ StoreSpec.blank db txt →
     ∃ mood tip,
       classify_mood db polarity subjectivity txt = inr (mood, tip) ∧
       mood_check w (mkMoodText txt) s
       = (mkStore (reminders s)
            (moods s ++ [ {| m_text := txt; m_mood := mood; m_tip := tip;
                             m_timestamp := now_isoformat w |} ])
            (tasks s) (study_sessions s),
          inr {| mc_mood := mood; mc_tip := tip; mc_text := txt |})) ∧
  (∀ (w1 w2 : World) (s1 s2 : Store),
     unicode w1 = unicode w2 → sentiment w1 txt = sentiment w2 txt →
     snd (mood_check w1 (mkMoodText txt) s1) = snd (mood_check w2 (mkMoodText txt) s2)).
Proof.
  split_and!.
  - intros Hh. rewrite HandlerFacts.classify_mood_eq. unfold Expected.mood_of.
    by rewrite Hh.
  - intros Hs. rewrite HandlerFacts.classify_mood_eq. unfold Expected.mood_of.
    destruct (0.2 <? polarity)%float eqn:Hh; [|by rewrite Hs].
    apply MoodFacts.thresholds_exclusive in Hh. congruence.
  - intros Hh Hs. rewrite HandlerFacts.classify_mood_eq. unfold Expected.mood_of.
    by rewrite Hh, Hs.
  - rewrite HandlerFacts.classify_mood_eq. reflexivity.
  - rewrite HandlerFacts.classify_mood_eq. reflexivity.
  - intros word text. apply StripFacts.contains_spec.
  - intros w s <- Hsent Hb%StripFacts.strip_truthy_iff_not_blank.
    rewrite HandlerFacts.mood_check_eq. cbn [text]. rewrite Hb. cbn [negb]. cbv iota.
    rewrite HandlerFacts.classify_mood_eq.
    unfold Expected.mood_checked, Expected.mood_entry_of, Expected.with_mood.
    cbn [text m_mood m_tip]. rewrite Hsent. cbn [fst snd].
    destruct (Expected.mood_of (unicode w) polarity subjectivity txt) as [mood tip].
    by exists mood, tip.
  - intros w1 w2 s1 s2 Hdb Hsent. rewrite !HandlerFacts.mood_check_eq.
    unfold Expected.mood_checked, Expected.mood_entry_of. cbn [text].
    rewrite Hsent, Hdb. by destruct (negb _).
Qed.

Example mood_boundary_examples :
  let fine := Ustr.of_ascii "fine" in
  let bad := Ustr.of_ascii "bad" in
  classify_mood Fixtures.latin1 0.2 0.9 fine
  = inr ("😐 Neutral", "Stay focused! Create mind maps for complex topics") ∧
  classify_mood Fixtures.latin1 0.21 0.5 fine
  = inr ("😊 Happy", "Excellent! Study with a friend or study group") ∧
  classify_mood Fixtures.latin1 0.21 0.51 fine
  = inr ("😊 Happy", "Great mood! Find a quiet study space") ∧
  classify_mood Fixtures.latin1 (-0.3) 0 (Ustr.of_ascii "So TIRED today")
  = inr ("😞 Sad", "Take a refreshing break! Take regular short breaks") ∧
  classify_mood Fixtures.latin1 (-0.3) 0 bad
  = inr ("😞 Sad", "It's okay to feel down. Reward yourself after completing tasks") ∧
  classify_mood Fixtures.latin1 nan 0 bad
  = inr ("😐 Neutral", "Stay focused! Create mind maps for complex topics").
Proof. repeat split; vm_compute; reflexivity. Qed.

(** The handler at the boundary: a text with polarity exactly 0.2 is
    answered and stored as Neutral. *)
Example mood_check_boundary_example :
  let w := mkWorld "2024-05-01T10:00:00" (λ a _, a) (λ _, (0.2, 0.9)%float)
             Fixtures.latin1 in
  mood_check w (mkMoodText (Ustr.of_ascii "fine")) initial_store
  = (mkStore []
       [ {| m_text := Ustr.of_ascii "fine"; m_mood := "😐 Neutral";
            m_tip := "Stay focused! Create mind maps for complex topics";
            m_timestamp := "2024-05-01T10:00:00" |} ] [] [],
     inr {| mc_mood := "😐 Neutral";
            mc_tip := "Stay focused! Create mind maps for complex topics";
            mc_text := Ustr.of_ascii "fine" |}).
Proof. vm_compute. reflexivity. Qed.

Module RunFacts.
Import Expected HandlerFacts.

Lemma bind_ret_eq {A} (c : M A) (f : A → Response) (s : Store) :
  HM.bind c (λ r, HM.ret (f r)) s
  = (fst (c s), match snd (c s) with inl e => inl e | inr a => inr (f a) end).
Proof. unfold HM.bind, HM.ret. by destruct (c s) as [s' [e|a]]. Qed.

Lemma update_first_ids id st ts ts' found :
  update_first id st ts = Some (ts', found) → map t_id ts' = map t_id ts.
Proof.
  intros (before & t & after & -> & _ & _ & -> & ->)%update_first_Some.
  by rewrite !map_app.
Qed.

Lemma run_cons w req calls s :
  run ((w, req) :: calls) s
  = (fst (run calls (fst (handle w req s))),
     snd (handle w req s) :: snd (run calls (fst (handle w req s)))).
Proof.
  simpl. destruct (handle w req s) as [s1 r]. simpl.
  by destruct (run calls s1).
Qed.

End RunFacts.

Module TaskIdFacts.
Import Expected HandlerFacts RunFacts TaskIds.

(** One call: the ids in the task store grow by the id the call assigned,
    and a call assigns one exactly when it is a valid [add_task]. *)
Lemma handle_task_ids w req s :
  map t_id (tasks (fst (handle w req s)))
  = map t_id (tasks s) ++ option_list (added_task_id (snd (handle w req s))) ∧
  added_task_id (snd (handle w req s))
  = if valid_add_task (w, req) then Some (str (Z.of_nat (length (tasks s)) + 1)) else None.
Proof.
  destruct req as [nd|md|t|ss| |c|id u|]; unfold handle; rewrite bind_ret_eq;
    unfold valid_add_task; simpl snd.
  - rewrite add_note_eq. repeat case_match; simpl; by rewrite ?app_nil_r.
  - rewrite mood_check_eq. repeat case_match; simpl; by rewrite ?app_nil_r.
  - rewrite add_task_eq. destruct (PyStr.mem (subject t) SUBJECTS); simpl.
    + by rewrite map_app.
    + by rewrite app_nil_r.
  - rewrite record_study_session_eq. repeat case_match; simpl; by rewrite ?app_nil_r.
  - simpl. by rewrite app_nil_r.
  - rewrite get_study_tips_eq. repeat case_match; simpl; by rewrite ?app_nil_r.
  - rewrite update_task_status_eq. destruct (negb _); simpl; [by rewrite app_nil_r|].
    destruct (update_first _ _ _) as [[ts' f]|] eqn:Hu; simpl; rewrite app_nil_r; [|done].
    split; [|done]. by eapply update_first_ids.
  - simpl. by rewrite app_nil_r.
Qed.

Lemma decimal_ids_cons first count :
  decimal_ids first (S count) = str (Z.of_nat first) :: decimal_ids (S first) count.
Proof. reflexivity. Qed.

Lemma added_task_ids_cons r rs :
  added_task_ids (r :: rs) = option_list (added_task_id r) ++ added_task_ids rs.
Proof. unfold added_task_ids. simpl. by destruct (added_task_id r). Qed.

Lemma run_task_ids calls : ∀ s,
  let outcome := run calls s in
  let ids := added_task_ids (snd outcome) in
  ids = decimal_ids (S (length (tasks s))) (length (List.filter valid_add_task calls)) ∧
  map t_id (tasks (fst outcome)) = map t_id (tasks s) ++ ids.
Proof.
  induction calls as [|[w req] calls IH]; intros s.
  - simpl. by rewrite app_nil_r.
  - cbv zeta. rewrite run_cons. simpl fst. simpl snd.
    destruct (handle_task_ids w req s) as [Hids Hadded].
    destruct (IH (fst (handle w req s))) as [IHids IHstore].
    assert (length (tasks (fst (handle w req s)))
            = length (tasks s)
              + length (option_list (added_task_id (snd (handle w req s)))))%nat
      as Hlen.
    { rewrite <-(length_map t_id (tasks (fst (handle w req s)))), Hids.
      by rewrite length_app, length_map. }
    rewrite Hlen in IHids.
    rewrite added_task_ids_cons, IHstore, Hids, IHids, <-app_assoc.
    split; [|done].
    rewrite Hadded. simpl List.filter.
    destruct (valid_add_task (w, req)); simpl.
    + rewrite decimal_ids_cons. f_equal; [f_equal; lia|]. f_equal. lia.
    + by rewrite Nat.add_0_r.
Qed.

Lemma decimal_ids_NoDup first count : NoDup (decimal_ids first count).
Proof.
  unfold decimal_ids. apply NoDup_fmap_2_strong; [|apply NoDup_seq].
  intros a b _ _ Heq. unfold str in Heq. apply (inj pretty) in Heq. lia.
Qed.

End TaskIdFacts.

(** C3: whatever the notes, moods and study sessions already stored, and
    whatever other calls come in between, the successful [add_task] calls
    (those with valid data) are given the ids "1", "2", ..., "N" in call
    order; these are the ids of the task store, and no two are the same. *)
Theorem add_task_ids_sequential
    (calls : list (World * Request))
    (notes : list Reminder) (mood_log : list MoodEntry) (sessions : list SessionEntry) :
  let outcome := run calls (mkStore notes mood_log [] sessions) in
  let ids := TaskIds.added_task_ids (snd outcome) in
  length ids = length (List.filter TaskIds.valid_add_task calls) ∧
  ids = TaskIds.decimal_ids 1 (length ids) ∧
  map t_id (tasks (fst outcome)) = ids ∧
  NoDup (map t_id (tasks (fst outcome))).
Proof.
  cbv zeta.
  destruct (TaskIdFacts.run_task_ids calls (mkStore notes mood_log [] sessions))
    as [Hids Hstore].
  simpl in Hids, Hstore. rewrite Hstore.
  assert (length (TaskIds.added_task_ids
                    (snd (run calls (mkStore notes mood_log [] sessions))))
          = length (List.filter TaskIds.valid_add_task calls)) as Hlen.
  { rewrite Hids. unfold TaskIds.decimal_ids. by rewrite length_map, length_seq. }
  split_and!; [done| |done|].
  - by rewrite Hlen.
  - rewrite Hids. apply TaskIdFacts.decimal_ids_NoDup.
Qed.

Example add_task_ids_example :
  let w := mkWorld "2024-05-01T10:00:00" (λ a _, a) (λ _, (0, 0)%float)
             Fixtures.latin1 in
  let t := mkTask "Essay" "Write it" "2024-06-01" "History" 2 "pending" in
  TaskIds.added_task_ids
    (snd (run [(w, AddTask t); (w, AddNote (mkNote (Ustr.of_ascii "Read chapter four") "Homework" (Some 1)));
               (w, AddTask t); (w, AddTask (mkTask "x" "y" "z" "Alchemy" 1 "pending"));
               (w, AddTask t)] initial_store))
  = ["1"; "2"; "3"].
Proof. vm_compute. reflexivity. Qed.

(** C4: every handler is atomic with respect to errors.  A call that fails
    fails with a [ValidationError] or a [NotFoundError] and leaves the four
    stores exactly as they were; a call that succeeds has made its mutation
    and returned its response.  (The random generator keeps to the range it
    is asked for.) *)
Theorem handlers_atomic (w : World) (req : Request) (s : Store) :
  randint_in_range w →
  match handle w req s with
  | (s', inl e) => s' = s ∧ (Expected.ValidationError e ∨ Expected.NotFoundError e)
  | (s', inr resp) => Expected.committed w req resp s s'
  end.
Proof.
  intros Hrand.
  destruct req as [nd|md|t|ss| |c|tid u|]; unfold handle; rewrite RunFacts.bind_ret_eq.
  - rewrite HandlerFacts.add_note_eq.
    destruct (negb _); [HandlerFacts.rejected_400|].
    destruct (negb _); [HandlerFacts.rejected_400|]. done.
  - rewrite HandlerFacts.mood_check_eq.
    destruct (negb _); [HandlerFacts.rejected_400|]. done.
  - rewrite HandlerFacts.add_task_eq.
    destruct (negb _); [HandlerFacts.rejected_400|]. done.
  - rewrite HandlerFacts.record_study_session_eq.
    destruct (negb _); [HandlerFacts.rejected_400|].
    destruct (_ || _); [HandlerFacts.rejected_400|].
    destruct (HandlerFacts.session_tip_in_range w (duration ss) Hrand)
      as (tip & -> & Htip).
    done.
  - done.
  - rewrite HandlerFacts.get_study_tips_eq.
    destruct (dict_get STUDY_TIPS c) eqn:Hc; [done|HandlerFacts.rejected_400].
  - rewrite HandlerFacts.update_task_status_eq.
    destruct (negb _); [HandlerFacts.rejected_400|].
    destruct (update_first _ _ _) as [[ts' found]|] eqn:Hu; simpl.
    + apply HandlerFacts.update_first_Some in Hu
        as (before & t0 & after & Hts & Hfirst & Hid & -> & ->).
      exists before, t0, after.
      split_and!; try done; apply HandlerFacts.set_status_written.
    + split; [done|right; by eexists].
  - done.
Qed.

(** The generator of the example world keeps to its range. *)
Lemma fixture_world_randint : randint_in_range Fixtures.world.
Proof. intros a b Hab. simpl. lia. Defined.

Lemma handlers_atomic_witness :
  randint_in_range Fixtures.world ∧
  match handle Fixtures.world
          (UpdateTaskStatus "7" (mkTaskUpdate "completed")) Fixtures.two_tasks with
  | (s', inl e) =>
      s' = Fixtures.two_tasks ∧ (Expected.ValidationError e ∨ Expected.NotFoundError e)
  | (s', inr resp) =>
      Expected.committed Fixtures.world
        (UpdateTaskStatus "7" (mkTaskUpdate "completed")) resp Fixtures.two_tasks s'
  end.
Proof.
  split; [exact fixture_world_randint|].
  exact (handlers_atomic Fixtures.world (UpdateTaskStatus "7" (mkTaskUpdate "completed"))
           Fixtures.two_tasks fixture_world_randint).
Defined.

(** C5: with a valid new status, [update_task_status] on an id that is in
    the task store changes the status field of the first task with that
    id and nothing else (not the task's other fields, not the other tasks
    nor their order, not the other three stores) and returns the updated
    task; on an id that is not in the store it fails with a
    [NotFoundError] (status 404) and changes nothing. *)
Theorem update_task_status_frame (s : Store) (task_id : string) (task_update : TaskUpdate) :
  new_status task_update ∈ TASK_STATUSES →
  (task_id ∈ map t_id (tasks s) →
     ∃ before t after t',
       tasks s = before ++ t :: after ∧
       (task_id ∉ map t_id before) ∧ t_id t = task_id ∧
       update_task_status task_id task_update s
       = (mkStore (reminders s) (moods s) (before ++ t' :: after) (study_sessions s),
          inr {| su_message := "Task status updated"; su_task := t' |}) ∧
       t_status t' = new_status task_update ∧
       t_title t' = t_title t ∧ t_description t' = t_description t ∧
       t_due_date t' = t_due_date t ∧ t_subject t' = t_subject t ∧
       t_priority t' = t_priority t ∧ t_id t' = t_id t ∧
       t_timestamp t' = t_timestamp t) ∧
  ((task_id ∉ map t_id (tasks s)) →
     update_task_status task_id task_update s
     = (s, inl (HTTPException 404 "Task not found"))).
Proof.
  intros Hvalid%KeywordFacts.mem_elem_of.
  rewrite HandlerFacts.update_task_status_eq, Hvalid. simpl negb. cbv iota.
  split.
  - intros Hin.
    destruct (update_first task_id (new_status task_update) (tasks s))
      as [[ts' found]|] eqn:Hu.
    + apply HandlerFacts.update_first_Some in Hu
        as (before & t0 & after & Hts & Hnot & Hid & -> & ->).
      exists before, t0, after, (set_status t0 (new_status task_update)).
      split_and!; done.
    + apply HandlerFacts.update_first_None in Hu. done.
  - intros Hnot%(HandlerFacts.update_first_None _ (new_status task_update)).
    by rewrite Hnot.
Qed.

Lemma update_task_status_frame_witness :
  "completed" ∈ TASK_STATUSES ∧
  ("1" ∈ map t_id (tasks Fixtures.two_tasks) →
     ∃ before t after t',
       tasks Fixtures.two_tasks = before ++ t :: after ∧
       ("1" ∉ map t_id before) ∧ t_id t = "1" ∧
       update_task_status "1" (mkTaskUpdate "completed") Fixtures.two_tasks
       = (mkStore (reminders Fixtures.two_tasks) (moods Fixtures.two_tasks)
            (before ++ t' :: after) (study_sessions Fixtures.two_tasks),
          inr {| su_message := "Task status updated"; su_task := t' |}) ∧
       t_status t' = "completed" ∧
       t_title t' = t_title t ∧ t_description t' = t_description t ∧
       t_due_date t' = t_due_date t ∧ t_subject t' = t_subject t ∧
       t_priority t' = t_priority t ∧ t_id t' = t_id t ∧
       t_timestamp t' = t_timestamp t) ∧
  (("999" ∉ map t_id (tasks Fixtures.two_tasks)) →
     update_task_status "999" (mkTaskUpdate "completed") Fixtures.two_tasks
     = (Fixtures.two_tasks, inl (HTTPException 404 "Task not found"))).
Proof.
  assert ("completed" ∈ TASK_STATUSES) as Hvalid
    by (unfold TASK_STATUSES; repeat constructor).
  split; [exact Hvalid|]. split.
  - exact (proj1 (update_task_status_frame Fixtures.two_tasks "1"
                    (mkTaskUpdate "completed") Hvalid)).
  - exact (proj2 (update_task_status_frame Fixtures.two_tasks "999"
                    (mkTaskUpdate "completed") Hvalid)).
Defined.

Example update_task_status_example :
  update_task_status "1" (mkTaskUpdate "completed") Fixtures.two_tasks
  = (mkStore [] []
       [ Expected.task_entry_of Fixtures.world
           (mkTask "Essay" "Write it" "2024-06-01" "History" 2 "completed") 0;
         Expected.task_entry_of Fixtures.world Fixtures.lab 1 ] [],
     inr {| su_message := "Task status updated";
            su_task := Expected.task_entry_of Fixtures.world
                         (mkTask "Essay" "Write it" "2024-06-01" "History" 2 "completed") 0 |})
  ∧ update_task_status "999" (mkTaskUpdate "completed") Fixtures.two_tasks
    = (Fixtures.two_tasks, inl (HTTPException 404 "Task not found")).
Proof. split; vm_compute; reflexivity. Qed.

(** C7: [record_study_session] rejects with a [ValidationError] exactly
    when the subject is not one of [SUBJECTS] or the duration is below 5
    or above 480 (5 and 480 are accepted), and then stores nothing;
    otherwise it appends the session and returns it with a tip, which is
    the Pomodoro tip when the duration exceeds 120 and one of the four
    memory tips when it does not.  (The random generator keeps to the range
    it is asked for.) *)
Theorem record_study_session_contract (w : World) (session : StudySession) (s : Store) :
  randint_in_range w →
  let rejected :=
    (session_subject session ∉ SUBJECTS) ∨ duration session < 5 ∨ 480 < duration session in
  (rejected →
     ∃ e, record_study_session w session s = (s, inl e) ∧ Expected.ValidationError e) ∧
  (¬ rejected →
     ∃ tip,
       record_study_session w session s
       = (Expected.with_session s (Expected.session_entry_of w session),
          inr (Expected.session_recorded session tip)) ∧
       (120 < duration session → tip = Labels.TIP_POMODORO) ∧
       (duration session ≤ 120 → tip ∈ Labels.MEMORY_TIPS)).
Proof.
  intros Hrand rejected. subst rejected.
  rewrite HandlerFacts.record_study_session_eq.
  destruct (PyStr.mem (session_subject session) SUBJECTS) eqn:Hsubj; simpl negb; cbv iota.
  2:{ apply KeywordFacts.mem_not_elem_of in Hsubj. split.
      - intros _. eexists. split; [done|by eexists].
      - intros Hok. exfalso. apply Hok. by left. }
  apply KeywordFacts.mem_elem_of in Hsubj.
  destruct (Z.ltb_spec (duration session) 5) as [Hlo|Hlo]; simpl orb; cbv iota.
  { split.
    - intros _. eexists. split; [done|by eexists].
    - intros Hok. exfalso. apply Hok. right. by left. }
  destruct (Z.ltb_spec 480 (duration session)) as [Hhi|Hhi]; cbv iota.
  { split.
    - intros _. eexists. split; [done|by eexists].
    - intros Hok. exfalso. apply Hok. right. by right. }
  split.
  - intros [Hbad|[?|?]]; [done|lia|lia].
  - intros _.
    destruct (HandlerFacts.session_tip_in_range w (duration session) Hrand)
      as (tip & -> & Htip).
    exists tip. split; [done|].
    unfold Expected.session_tip_ok in Htip.
    destruct (Z.ltb_spec 120 (duration session)); split; (done || lia).
Qed.

Lemma record_study_session_contract_witness :
  randint_in_range Fixtures.world ∧
  ∃ tip,
    record_study_session Fixtures.world
      (mkStudySession "Mathematics" 150 ["Integrals"] []) initial_store
    = (Expected.with_session initial_store
         (Expected.session_entry_of Fixtures.world
            (mkStudySession "Mathematics" 150 ["Integrals"] [])),
       inr (Expected.session_recorded
              (mkStudySession "Mathematics" 150 ["Integrals"] []) tip)) ∧
    (120 < 150 → tip = Labels.TIP_POMODORO) ∧
    (150 ≤ 120 → tip ∈ Labels.MEMORY_TIPS).
Proof.
  split; [exact fixture_world_randint|].
  apply (proj2 (record_study_session_contract Fixtures.world
                  (mkStudySession "Mathematics" 150 ["Integrals"] []) initial_store
                  fixture_world_randint)).
  simpl. intros [Hsubj|[Hlo|Hhi]]; [|lia|lia].
  apply Hsubj. unfold SUBJECTS. repeat constructor.
Defined.

Example record_study_session_examples :
  snd (record_study_session Fixtures.world
         (mkStudySession "Mathematics" 150 [] []) initial_store)
  = inr (Expected.session_recorded (mkStudySession "Mathematics" 150 [] [])
           "Use the Pomodoro Technique (25 min study, 5 min break)") ∧
  snd (record_study_session Fixtures.world
         (mkStudySession "Mathematics" 60 [] []) initial_store)
  = inr (Expected.session_recorded (mkStudySession "Mathematics" 60 [] [])
           "Create mind maps for complex topics") ∧
  record_study_session Fixtures.world (mkStudySession "Mathematics" 5 [] []) initial_store
  = (Expected.with_session initial_store
       (Expected.session_entry_of Fixtures.world (mkStudySession "Mathematics" 5 [] [])),
     inr (Expected.session_recorded (mkStudySession "Mathematics" 5 [] [])
            "Create mind maps for complex topics")) ∧
  snd (record_study_session Fixtures.world
         (mkStudySession "Mathematics" 480 [] []) initial_store)
  = inr (Expected.session_recorded (mkStudySession "Mathematics" 480 [] [])
           "Use the Pomodoro Technique (25 min study, 5 min break)") ∧
  record_study_session Fixtures.world (mkStudySession "Mathematics" 4 [] []) initial_store
  = (initial_store, inl (HTTPException 400 "Duration must be between 5 and 480 minutes")) ∧
  record_study_session Fixtures.world (mkStudySession "Mathematics" 481 [] []) initial_store
  = (initial_store, inl (HTTPException 400 "Duration must be between 5 and 480 minutes")).
Proof. repeat split; vm_compute; reflexivity. Qed.

Example add_note_examples :
  add_note Fixtures.world (mkNote (Ustr.of_ascii "") "Homework" (Some 1)) initial_store
  = (initial_store, inl (HTTPException 400 "Note cannot be empty")) ∧
  add_note Fixtures.world (mkNote (Ustr.of_ascii "   ") "Homework" (Some 1)) initial_store
  = (initial_store, inl (HTTPException 400 "Note cannot be empty")) ∧
  add_note Fixtures.world (mkNote Fixtures.nbsp "Homework" (Some 1)) initial_store
  = (initial_store, inl (HTTPException 400 "Note cannot be empty")) ∧
  add_note Fixtures.world
    (mkNote (Ustr.of_ascii "Study chapter 5 for exam tomorrow") "NotACategory" (Some 1))
    initial_store
  = (initial_store,
     inl (HTTPException 400
            "Invalid category. Choose from: Lecture Notes, Study Tips, Research Ideas, Questions, Homework, Project Ideas, Other")) ∧
  snd (add_note Fixtures.world
         (mkNote (Ustr.of_ascii "Study chapter 5 for exam tomorrow") "Homework" (Some 1))
         initial_store)
  = inr {| na_status := "Note added ✅";
           na_keywords := map Ustr.of_ascii ["study"; "chapter"; "exam"; "tomorrow"];
           na_note := Ustr.of_ascii "Study chapter 5 for exam tomorrow";
           na_category := "Homework";
           na_priority := Some 1 |}.
Proof. repeat split; vm_compute; reflexivity. Qed.

Module StatsFacts.
Import StatsSpec.

Lemma foldl_add_total (a : Z) (l : list Z) : foldl Z.add a l = a + total l.
Proof.
  revert a. induction l as [|x l IH]; intros a; simpl; [lia|].
  rewrite IH. lia.
Qed.

Lemma sum_total l : sum l = total l.
Proof. unfold sum. by rewrite foldl_add_total. Qed.

Lemma durations_for_absent subj (sessions : list SessionEntry) :
  subj ∉ map s_subject sessions → durations_for subj sessions = [].
Proof.
  unfold durations_for. induction sessions as [|e l IH]; [done|].
  change (map s_subject (e :: l)) with (s_subject e :: map s_subject l).
  intros [Hne Hnot]%not_elem_of_cons.
  rewrite filter_cons_False by (simpl; congruence). by apply IH.
Qed.

(** The loop of lines 204-206, from any dictionary built so far. *)
Lemma breakdown_lookup (sessions : list SessionEntry) :
  ∀ (acc : gmap string Z) (subj : string),
    foldl add_session acc sessions !! subj
    = if decide (subj ∈ map s_subject sessions)
      then Some (default 0 (acc !! subj) + total (durations_for subj sessions))
      else acc !! subj.
Proof.
  induction sessions as [|e l IH]; intros acc subj.
  - rewrite decide_False by apply not_elem_of_nil. done.
  - change (foldl add_session acc (e :: l))
      with (foldl add_session (add_session acc e) l).
    change (map s_subject (e :: l)) with (s_subject e :: map s_subject l).
    rewrite IH. unfold add_session, durations_for.
    destruct (decide (s_subject e = subj)) as [Heq|Hne].
    + subst subj. rewrite lookup_insert_eq.
      rewrite (decide_True (P := s_subject e ∈ s_subject e :: _))
        by (apply elem_of_cons; by left).
      rewrite filter_cons_True by done.
      change (total (map s_duration (e :: ?l)))
        with (s_duration e + total (map s_duration l)).
      destruct (decide (s_subject e ∈ map s_subject l)) as [Hin|Hnot].
      * f_equal. simpl. lia.
      * f_equal.
        fold (durations_for (s_subject e) l).
        rewrite durations_for_absent by done. simpl. lia.
    + rewrite lookup_insert_ne by done.
      rewrite filter_cons_False by done.
      destruct (decide (subj ∈ map s_subject l)) as [Hin|Hnot].
      * rewrite decide_True by (apply elem_of_cons; by right). done.
      * rewrite decide_False by (apply not_elem_of_cons; split; [congruence|done]).
        done.
Qed.

Lemma filter_eqb_completed (ts : list TaskEntry) :
  List.filter (λ t, String.eqb (t_status t) "completed") ts = completed ts.
Proof.
  unfold completed. induction ts as [|t ts IH]; [done|]. simpl.
  destruct (String.eqb_spec (t_status t) "completed") as [Heq|Hne].
  - rewrite filter_cons_True by done. by rewrite IH.
  - by rewrite filter_cons_False.
Qed.

End StatsFacts.

(** C6, as the code has it: [get_study_stats] changes no store and returns the sum of all
    session durations, for each subject the sum of the durations of its
    sessions (subjects without a session are absent), the share of
    completed tasks times 100 rounded to two decimals (the integer 0
    without tasks; the division, the product and the rounding are those
    of binary64 arithmetic), and the number of notes. *)
Theorem get_study_stats_spec (s : Store) :
  ∃ stats,
    get_study_stats s = (s, inr stats) ∧
    total_study_time_minutes stats
    = StatsSpec.total (map s_duration (study_sessions s)) ∧
    (∀ subj,
       subjects_breakdown stats !! subj
       = if decide (subj ∈ map s_subject (study_sessions s))
         then Some (StatsSpec.total (StatsSpec.durations_for subj (study_sessions s)))
         else None) ∧
    task_completion_rate stats = StatsSpec.completion_rate (tasks s) ∧
    total_notes stats = Z.of_nat (length (reminders s)).
Proof.
  unfold get_study_stats, HM.bind, HM.get, HM.ret. cbv beta iota zeta.
  eexists. split; [reflexivity|].
  cbn [total_study_time_minutes subjects_breakdown task_completion_rate total_notes].
  split_and!.
  - apply StatsFacts.sum_total.
  - intros subj. rewrite StatsFacts.breakdown_lookup, lookup_empty.
    by destruct (decide _).
  - rewrite StatsFacts.filter_eqb_completed. unfold StatsSpec.completion_rate.
    destruct (tasks s) as [|t ts] eqn:Hts; [done|]. rewrite <-Hts.
    destruct (Z.ltb_spec 0 (len (tasks s))) as [_|Hlen]; [done|].
    rewrite Hts in Hlen. unfold len in Hlen. simpl length in Hlen. lia.
  - done.
Qed.

Example get_study_stats_example :
  let sessions :=
    [ (Fixtures.world, RecordStudySession (mkStudySession "Mathematics" 30 [] []));
      (Fixtures.world, RecordStudySession (mkStudySession "Physics" 60 [] []));
      (Fixtures.world, RecordStudySession (mkStudySession "Mathematics" 90 [] [])) ] in
  ∃ stats,
    snd (get_study_stats (fst (run sessions initial_store))) = inr stats ∧
    total_study_time_minutes stats = 180 ∧
    subjects_breakdown stats = {[ "Mathematics" := 120; "Physics" := 60 ]} ∧
    task_completion_rate stats = PyNum.Int 0.
Proof. eexists. split; [reflexivity|]. split_and!; vm_compute; reflexivity. Qed.

Example completion_rate_examples :
  let done_ := Expected.task_entry_of Fixtures.world
                 (mkTask "a" "b" "c" "Other" 1 "completed") 0 in
  let open := Expected.task_entry_of Fixtures.world Fixtures.essay 0 in
  StatsSpec.completion_rate [done_; open; open] = PyNum.Float 33.33%float ∧
  StatsSpec.completion_rate (done_ :: repeat open 31) = PyNum.Float 3.12%float ∧
  StatsSpec.completion_rate [done_; done_] = PyNum.Float 100%float.
Proof. split_and!; vm_compute; reflexivity. Qed.

(** C6 as stated does not hold where the exact quotient is a tie: with 23
    of 160 tasks completed, 100 * 23 / 160 = 14.375 rounds to 14.38 (ties
    away from zero and ties to even agree), and the service returns 14.37:
    the binary64 product is just below the tie. *)
Lemma completion_rate_tie_counterexample :
  length (tasks Fixtures.busy_term) = 160%nat ∧
  length (StatsSpec.completed (tasks Fixtures.busy_term)) = 23%nat ∧
  1000 * (100 * 23) = 14375 * 160 ∧
  StatsSpec.hundredths_half_up 23 160 = 1438 ∧
  StatsSpec.hundredths_half_even 23 160 = 1438 ∧
  (∃ stats,
     get_study_stats Fixtures.busy_term = (Fixtures.busy_term, inr stats) ∧
     task_completion_rate stats = PyNum.Float (StatsSpec.double_of_hundredths 1437)) ∧
  PrimFloat.eqb (StatsSpec.double_of_hundredths 1437)
    (StatsSpec.double_of_hundredths 1438) = false ∧
  PrimFloat.eqb (PyNum.truediv 23 160 * 100) 14.375 = false ∧
  PrimFloat.ltb (PyNum.truediv 23 160 * 100) 14.375 = true.
Proof.
  split_and!; try (vm_compute; reflexivity).
  eexists. split; vm_compute; reflexivity.
Qed.

(** For up to 160 tasks, the rate returned is always a multiple of 1/100
    nearest to the exact quotient: only the choice between the two
    neighbours of a tie departs from the usual rounding. *)
Lemma completion_rate_nearest_up_to_160 (c t : nat) :
  (0 < t ≤ 160)%nat → (c ≤ t)%nat →
  StatsSpec.rate_is_nearest (Z.of_nat c) (Z.of_nat t) = true.
Proof.
  intros Ht Hc.
  assert (forallb
            (λ t, forallb (λ c, StatsSpec.rate_is_nearest (Z.of_nat c) (Z.of_nat t))
                    (seq 0 (S t)))
            (seq 1 160) = true) as Hall by (vm_compute; reflexivity).
  rewrite forallb_forall in Hall.
  specialize (Hall t). rewrite forallb_forall in Hall.
  apply Hall; apply in_seq; lia.
Qed.

Module LedgerFacts.
Import Expected HandlerFacts RunFacts Ledger.

Lemma notes_of_cons c calls :
  notes_of (c :: calls)
  = match snd c with
    | AddNote nd => reminder_of (fst c) nd :: notes_of calls
    | _ => notes_of calls
    end.
Proof. unfold notes_of. simpl. by destruct (snd c). Qed.

Lemma moods_of_cons c calls :
  moods_of (c :: calls)
  = match snd c with
    | MoodCheck md => mood_entry_of (fst c) md :: moods_of calls
    | _ => moods_of calls
    end.
Proof. unfold moods_of. simpl. by destruct (snd c). Qed.

Lemma sessions_of_cons c calls :
  sessions_of (c :: calls)
  = match snd c with
    | RecordStudySession ss => session_entry_of (fst c) ss :: sessions_of calls
    | _ => sessions_of calls
    end.
Proof. unfold sessions_of. simpl. by destruct (snd c). Qed.

Lemma handle_add_succeeded w req s :
  is_add req = true → succeeded (snd (handle w req s)) = true →
  fst (handle w req s) = appended w req s.
Proof.
  destruct req as [nd|md|t|ss| |c|tid u|]; try discriminate; intros _;
    unfold handle; rewrite bind_ret_eq; simpl fst; simpl snd.
  - rewrite add_note_eq.
    destruct (negb _); [discriminate|]. destruct (negb _); [discriminate|]. done.
  - rewrite mood_check_eq. destruct (negb _); [discriminate|]. done.
  - rewrite add_task_eq. destruct (negb _); [discriminate|]. done.
  - rewrite record_study_session_eq.
    destruct (negb _); [discriminate|]. destruct (_ || _); [discriminate|]. done.
Qed.

Lemma run_adds calls : ∀ s,
  Forall (λ c, is_add (snd c) = true) calls →
  Forall (λ r, succeeded r = true) (snd (run calls s)) →
  reminders (fst (run calls s)) = reminders s ++ notes_of calls ∧
  moods (fst (run calls s)) = moods s ++ moods_of calls ∧
  tasks (fst (run calls s)) = tasks s ++ tasks_of (length (tasks s)) calls ∧
  study_sessions (fst (run calls s)) = study_sessions s ++ sessions_of calls.
Proof.
  induction calls as [|[w req] calls IH]; intros s Hadd Hok.
  - simpl. by rewrite !app_nil_r.
  - rewrite run_cons in *. simpl fst in *. simpl snd in Hok.
    apply Forall_cons in Hadd as [Hreq Hadd]. apply Forall_cons in Hok as [Hr Hok].
    simpl in Hreq.
    pose proof (handle_add_succeeded w req s Hreq Hr) as Hs1.
    destruct (IH _ Hadd Hok) as (Hn & Hm & Ht & Hs). rewrite Hn, Hm, Ht, Hs, Hs1.
    rewrite notes_of_cons, moods_of_cons, sessions_of_cons.
    destruct req; try discriminate; simpl; rewrite <-?app_assoc; try done.
    rewrite length_app. simpl. rewrite Nat.add_1_r. done.
Qed.

Lemma records_of_length calls : ∀ n,
  Forall (λ c, is_add (snd c) = true) calls →
  (length (notes_of calls) + length (moods_of calls)
   + length (tasks_of n calls) + length (sessions_of calls) = length calls)%nat.
Proof.
  induction calls as [|[w req] calls IH]; intros n Hadd; [done|].
  apply Forall_cons in Hadd as [Hreq Hadd]. simpl in Hreq.
  rewrite notes_of_cons, moods_of_cons, sessions_of_cons.
  destruct req; try discriminate; simpl;
    [specialize (IH n Hadd)|specialize (IH n Hadd)
    |specialize (IH (S n) Hadd)|specialize (IH n Hadd)]; lia.
Qed.

(** ** Mood labels *)

Lemma mood_of_label db p sb txt : fst (mood_of db p sb txt) ∈ Labels.MOOD_LABELS.
Proof.
  unfold mood_of, Labels.MOOD_LABELS.
  destruct (0.2 <? p)%float; [|destruct (p <? -0.2)%float]; simpl; repeat constructor.
Qed.

Lemma label_one_mood label : label ∈ Labels.MOOD_LABELS → one_mood label.
Proof.
  unfold Labels.MOOD_LABELS, one_mood.
  intros [->|[->|[->|[]%elem_of_nil]%elem_of_cons]%elem_of_cons]%elem_of_cons.
  - left. by vm_compute.
  - right; left. by vm_compute.
  - right; right. by vm_compute.
Qed.

(** One call: the mood log is as it was, or one classified entry longer. *)
Lemma handle_moods w req s :
  moods (fst (handle w req s)) = moods s ∨
  ∃ md, moods (fst (handle w req s)) = moods s ++ [mood_entry_of w md].
Proof.
  destruct req as [nd|md|t|ss| |c|tid u|]; unfold handle; rewrite bind_ret_eq; simpl fst.
  - rewrite add_note_eq. repeat case_match; by left.
  - rewrite mood_check_eq. case_match; [by left|]. right. by exists md.
  - rewrite add_task_eq. case_match; by left.
  - rewrite record_study_session_eq. repeat case_match; by left.
  - by left.
  - rewrite get_study_tips_eq. case_match; by left.
  - rewrite update_task_status_eq. repeat case_match; by left.
  - by left.
Qed.

(** One call: the task store is as it was, or one entry longer, or one
    entry has a new, valid status. *)
Lemma handle_tasks w req s :
  tasks (fst (handle w req s)) = tasks s ∨
  (∃ t, req = AddTask t ∧
        tasks (fst (handle w req s))
        = tasks s ++ [task_entry_of w t (length (tasks s))]) ∨
  (∃ tid u before t after,
     req = UpdateTaskStatus tid u ∧ new_status u ∈ TASK_STATUSES ∧
     tasks s = before ++ t :: after ∧
     tasks (fst (handle w req s)) = before ++ set_status t (new_status u) :: after).
Proof.
  destruct req as [nd|md|t|ss| |c|tid u|]; unfold handle; rewrite bind_ret_eq; simpl fst.
  - rewrite add_note_eq. repeat case_match; by left.
  - rewrite mood_check_eq. case_match; by left.
  - rewrite add_task_eq. case_match; [by left|]. right; left. by exists t.
  - rewrite record_study_session_eq. repeat case_match; by left.
  - by left.
  - rewrite get_study_tips_eq. case_match; by left.
  - rewrite update_task_status_eq.
    destruct (PyStr.mem (new_status u) TASK_STATUSES) eqn:Hu; [|by left].
    apply KeywordFacts.mem_elem_of in Hu. simpl negb. cbv iota.
    destruct (update_first _ _ _) as [[ts' found]|] eqn:Hf; [|by left].
    apply update_first_Some in Hf as (before & t0 & after & Hts & _ & _ & -> & ->).
    right; right. by exists tid, u, before, t0, after.
  - by left.
Qed.

Lemma run_mood_labels calls : ∀ s,
  Forall (λ m, m_mood m ∈ Labels.MOOD_LABELS) (moods s) →
  Forall (λ m, m_mood m ∈ Labels.MOOD_LABELS) (moods (fst (run calls s))).
Proof.
  induction calls as [|[w req] calls IH]; intros s Hs; [done|].
  rewrite run_cons. simpl fst. apply IH.
  destruct (handle_moods w req s) as [->|[md ->]]; [done|].
  apply Forall_app. split; [done|]. apply Forall_singleton.
  apply mood_of_label.
Qed.

Lemma mood_counts (l : list MoodEntry) :
  Forall (λ m, one_mood (m_mood m)) l →
  len (List.filter (λ m, PyStr.contains "Happy" (m_mood m)) l)
  + len (List.filter (λ m, PyStr.contains "Neutral" (m_mood m)) l)
  + len (List.filter (λ m, PyStr.contains "Sad" (m_mood m)) l)
  = len l.
Proof.
  unfold len. induction 1 as [|m l Hm _ IH]; [done|]. simpl.
  destruct Hm as [(-> & -> & ->)|[(-> & -> & ->)|(-> & -> & ->)]];
    simpl length; lia.
Qed.

End LedgerFacts.

(** The status invariant of C8 is kept by every call except an [add_task]
    whose request carries a status outside the three values. *)
Lemma task_statuses_kept_when_created_valid (calls : list (World * Request)) :
  ∀ s,
    Forall (λ c, ∀ t, snd c = AddTask t → status t ∈ TASK_STATUSES) calls →
    Forall (λ t, t_status t ∈ TASK_STATUSES) (tasks s) →
    Forall (λ t, t_status t ∈ TASK_STATUSES) (tasks (fst (run calls s))).
Proof.
  induction calls as [|[w req] calls IH]; intros s Hcalls Hs; [done|].
  apply Forall_cons in Hcalls as [Hreq Hcalls].
  rewrite RunFacts.run_cons. simpl fst. apply IH; [done|].
  destruct (LedgerFacts.handle_tasks w req s)
    as [->|[(t & -> & ->)|(tid & u & before & t & after & -> & Hu & Hts & ->)]];
    [done| |].
  - apply Forall_app. split; [done|]. apply Forall_singleton. simpl. by apply Hreq.
  - rewrite Hts in Hs. apply Forall_app in Hs as [Hb Ha].
    apply Forall_cons in Ha as [_ Ha].
    apply Forall_app. split; [done|]. by apply Forall_cons.
Qed.

(** C8 does not hold of the code: [add_task] stores the status the request
    carries without checking it, here "done". *)
Lemma add_task_stores_unchecked_status :
  ∃ entry,
    add_task Fixtures.world
      (mkTask "Essay" "Write it" "2024-06-01" "History" 2 "done") initial_store
    = (mkStore [] [] [entry] [], inr {| ta_entry := entry |}) ∧
    t_status entry = "done" ∧
    PyStr.mem (t_status entry) TASK_STATUSES = false ∧
    Ledger.reachable (mkStore [] [] [entry] []).
Proof.
  eexists. split; [vm_compute; reflexivity|]. split_and!; [done|done|].
  exists [(Fixtures.world,
           AddTask (mkTask "Essay" "Write it" "2024-06-01" "History" 2 "done"))].
  vm_compute. reflexivity.
Qed.

(** C9: after N successful adding calls, in any mix, on a fresh service,
    each store holds exactly the records of its calls, in call order (none
    lost, none twice); the four stores hold N records in all; and [all_data]
    returns these four stores and the two enumerations, and changes
    nothing. *)
Theorem all_data_round_trip (calls : list (World * Request)) :
  Forall (λ c, Ledger.is_add (snd c) = true) calls →
  Forall (λ r, Ledger.succeeded r = true) (snd (run calls initial_store)) →
  let s := fst (run calls initial_store) in
  reminders s = Ledger.notes_of calls ∧
  moods s = Ledger.moods_of calls ∧
  tasks s = Ledger.tasks_of 0 calls ∧
  study_sessions s = Ledger.sessions_of calls ∧
  Ledger.total_records s = length calls ∧
  all_data s = (s, inr (Ledger.dump s)).
Proof.
  intros Hadd Hok s.
  destruct (LedgerFacts.run_adds calls initial_store Hadd Hok) as (Hn & Hm & Ht & Hs).
  simpl in Hn, Hm, Ht, Hs. subst s.
  split_and!; try done.
  unfold Ledger.total_records. rewrite Hn, Hm, Ht, Hs.
  by apply LedgerFacts.records_of_length.
Qed.

Lemma all_data_round_trip_witness :
  let calls :=
    [ (Fixtures.world, AddNote (mkNote (Ustr.of_ascii "Review the chain rule") "Homework" (Some 2)));
      (Fixtures.world, AddTask Fixtures.essay);
      (Fixtures.world, MoodCheck (mkMoodText (Ustr.of_ascii "A good day")));
      (Fixtures.world, RecordStudySession (mkStudySession "Physics" 45 ["Optics"] []));
      (Fixtures.world, AddTask Fixtures.lab) ] in
  let s := fst (run calls initial_store) in
  reminders s = Ledger.notes_of calls ∧
  moods s = Ledger.moods_of calls ∧
  tasks s = Ledger.tasks_of 0 calls ∧
  study_sessions s = Ledger.sessions_of calls ∧
  Ledger.total_records s = 5%nat ∧
  all_data s = (s, inr (Ledger.dump s)).
Proof.
  apply (all_data_round_trip
           [ (Fixtures.world, AddNote (mkNote (Ustr.of_ascii "Review the chain rule") "Homework" (Some 2)));
             (Fixtures.world, AddTask Fixtures.essay);
             (Fixtures.world, MoodCheck (mkMoodText (Ustr.of_ascii "A good day")));
             (Fixtures.world, RecordStudySession (mkStudySession "Physics" 45 ["Optics"] []));
             (Fixtures.world, AddTask Fixtures.lab) ]).
  - repeat constructor.
  - vm_compute. repeat constructor.
Defined.

(** C10: in every store the service can reach, the label of every stored
    mood contains exactly one of "Happy", "Sad" and "Neutral", and so the
    positive, neutral and negative counts of [get_study_stats] add up to
    the number of stored moods. *)
Theorem mood_counts_partition (s : Store) :
  Ledger.reachable s →
  Forall (λ m, Ledger.one_mood (m_mood m)) (moods s) ∧
  ∃ stats,
    get_study_stats s = (s, inr stats) ∧
    positive (mood_tracking stats) + neutral (mood_tracking stats)
    + negative (mood_tracking stats)
    = Z.of_nat (length (moods s)).
Proof.
  intros [calls ->].
  assert (Forall (λ m, Ledger.one_mood (m_mood m))
            (moods (fst (run calls initial_store)))) as Hone.
  { eapply Forall_impl; [apply LedgerFacts.run_mood_labels; by constructor|].
    intros m. apply LedgerFacts.label_one_mood. }
  split; [done|].
  unfold get_study_stats, HM.bind, HM.get, HM.ret. cbv beta iota zeta.
  eexists. split; [reflexivity|].
  cbn [mood_tracking positive neutral negative].
  by apply LedgerFacts.mood_counts.
Qed.

Lemma mood_counts_partition_witness :
  let s := fst (run [ (Fixtures.world, MoodCheck (mkMoodText (Ustr.of_ascii "A good day")));
                      (Fixtures.world, AddTask Fixtures.essay) ] initial_store) in
  Forall (λ m, Ledger.one_mood (m_mood m)) (moods s) ∧
  ∃ stats,
    get_study_stats s = (s, inr stats) ∧
    positive (mood_tracking stats) + neutral (mood_tracking stats)
    + negative (mood_tracking stats)
    = Z.of_nat (length (moods s)).
Proof.
  apply (mood_counts_partition
           (fst (run [ (Fixtures.world, MoodCheck (mkMoodText (Ustr.of_ascii "A good day")));
                       (Fixtures.world, AddTask Fixtures.essay) ] initial_store))).
  exists [ (Fixtures.world, MoodCheck (mkMoodText (Ustr.of_ascii "A good day")));
           (Fixtures.world, AddTask Fixtures.essay) ].
  reflexivity.
Defined.

(** * Validation of notes and moods *)

(** X1: [add_note] tests the text first and the category second.  A blank
    text (empty, or made of characters that are whitespace in the Unicode
    database only) is rejected with "Note cannot be empty" whatever the
    category; a text that is not blank with an unknown
    category is rejected with the list of categories; every other note is
    accepted and stored with its keywords.  A rejection leaves the stores
    as they were. *)
Theorem add_note_decision (w : World) (nd : Note) (s : Store) :
  (StoreSpec.blank (unicode w) (note nd) →
     add_note w nd s = (s, inl (HTTPException 400 "Note cannot be empty"))) ∧
  (¬ StoreSpec.blank (unicode w) (note nd) → (category nd ∉ NOTE_CATEGORIES) →
     add_note w nd s
     = (s, inl (HTTPException 400
                  "Invalid category. Choose from: Lecture Notes, Study Tips, Research Ideas, Questions, Homework, Project Ideas, Other"))) ∧
  (¬ StoreSpec.blank (unicode w) (note nd) → category nd ∈ NOTE_CATEGORIES →
     add_note w nd s
     = (Expected.with_reminder s (Expected.reminder_of w nd),
        inr (Expected.note_added w nd))).
Proof.
  rewrite HandlerFacts.add_note_eq. split_and!.
  - intros Hb%StripFacts.strip_empty_iff_blank. by rewrite Hb.
  - intros Hb%StripFacts.strip_truthy_iff_not_blank Hc%KeywordFacts.mem_not_elem_of.
    by rewrite Hb, Hc.
  - intros Hb%StripFacts.strip_truthy_iff_not_blank Hc%KeywordFacts.mem_elem_of.
    by rewrite Hb, Hc.
Qed.

Module MoodEntryFacts.
Import Expected StoreSpec.

Lemma mood_of_tip db p sb txt : snd (mood_of db p sb txt) ∈ MOOD_TIPS.
Proof.
  unfold mood_of, MOOD_TIPS.
  destruct (0.2 <? p)%float; [destruct (0.5 <? sb)%float|destruct (p <? -0.2)%float;
    [destruct (_ || _)|]]; simpl; repeat constructor.
Qed.

End MoodEntryFacts.

(** X2: [mood_check] rejects a blank text (empty, or made of characters
    that are whitespace in the Unicode database only) with "Text cannot be
    empty" and stores nothing; every other text is accepted whatever the sentiment
    scores are (NaN included): one entry is appended to the mood log, its
    label is one of the three mood labels, its tip one of the five mood
    tips, and the response repeats label, tip and text. *)
Theorem mood_check_decision (w : World) (md : MoodText) (s : Store) :
  (StoreSpec.blank (unicode w) (text md) →
     mood_check w md s = (s, inl (HTTPException 400 "Text cannot be empty"))) ∧
  (¬ StoreSpec.blank (unicode w) (text md) →
     ∃ entry,
       mood_check w md s
       = (Expected.with_mood s entry,
          inr {| mc_mood := m_mood entry; mc_tip := m_tip entry; mc_text := text md |}) ∧
       m_text entry = text md ∧
       m_timestamp entry = now_isoformat w ∧
       m_mood entry ∈ Labels.MOOD_LABELS ∧
       m_tip entry ∈ StoreSpec.MOOD_TIPS).
Proof.
  rewrite HandlerFacts.mood_check_eq. split.
  - intros Hb%StripFacts.strip_empty_iff_blank. by rewrite Hb.
  - intros Hb%StripFacts.strip_truthy_iff_not_blank. rewrite Hb.
    exists (Expected.mood_entry_of w md). split_and!; try done.
    + apply LedgerFacts.mood_of_label.
    + apply MoodEntryFacts.mood_of_tip.
Qed.

(** * Every reachable store is well formed *)

Module WellFormedFacts.
Import Expected StoreSpec HandlerFacts RunFacts.

Lemma decimal_ids_snoc n :
  TaskIds.decimal_ids 1 (S n) = TaskIds.decimal_ids 1 n ++ [str (Z.of_nat n + 1)].
Proof.
  unfold TaskIds.decimal_ids. rewrite seq_S, map_app. f_equal.
  cbn [map]. do 2 f_equal. lia.
Qed.

Lemma ids_by_position_snoc ts e :
  ids_by_position ts → t_id e = str (Z.of_nat (length ts) + 1) →
  ids_by_position (ts ++ [e]).
Proof.
  unfold ids_by_position. intros Hts He.
  rewrite map_app, length_app, Hts. simpl.
  rewrite Nat.add_1_r, decimal_ids_snoc, He. done.
Qed.

Lemma ids_by_position_update tid st ts ts' found :
  update_first tid st ts = Some (ts', found) →
  ids_by_position ts → ids_by_position ts'.
Proof.
  unfold ids_by_position. intros Hu Hts.
  rewrite (update_first_ids _ _ _ _ _ Hu), Hts.
  f_equal. rewrite <-(length_map t_id ts'), (update_first_ids _ _ _ _ _ Hu).
  by rewrite length_map.
Qed.

Lemma valid_task_update tid st ts ts' found :
  update_first tid st ts = Some (ts', found) →
  Forall valid_task ts → Forall valid_task ts'.
Proof.
  intros (before & t & after & -> & _ & _ & -> & ->)%update_first_Some Hts.
  apply Forall_app in Hts as [Hb Ha]. apply Forall_cons in Ha as [Ht Ha].
  apply Forall_app. split; [done|]. by apply Forall_cons.
Qed.

(** One call keeps the tasks and the study sessions well formed. *)
Lemma handle_records w req s :
  well_formed_records s → well_formed_records (fst (handle w req s)).
Proof.
  intros Hwf. pose proof Hwf as (Ht & Hs & Hids).
  destruct req as [nd|md|t|ss| |c|tid u|]; unfold handle; rewrite bind_ret_eq.
  - rewrite add_note_eq. destruct (negb _); [exact Hwf|].
    destruct (negb _); exact Hwf.
  - rewrite mood_check_eq. destruct (negb _); exact Hwf.
  - rewrite add_task_eq.
    destruct (PyStr.mem (subject t) SUBJECTS) eqn:Hc; cbn [negb]; cbv iota;
      [|exact Hwf].
    split_and!; try done; simpl.
    + apply Forall_app. split; [done|]. apply Forall_singleton.
      by apply KeywordFacts.mem_elem_of.
    + by apply ids_by_position_snoc.
  - rewrite record_study_session_eq.
    destruct (PyStr.mem (session_subject ss) SUBJECTS) eqn:Hc; cbn [negb]; cbv iota;
      [|exact Hwf].
    destruct (Z.ltb_spec (duration ss) 5); cbn [orb]; cbv iota; [exact Hwf|].
    destruct (Z.ltb_spec 480 (duration ss)); cbv iota; [exact Hwf|].
    split_and!; try done. simpl. apply Forall_app. split; [done|].
    apply Forall_singleton. split; [by apply KeywordFacts.mem_elem_of|simpl; lia].
  - exact Hwf.
  - rewrite get_study_tips_eq. destruct (dict_get STUDY_TIPS c); exact Hwf.
  - rewrite update_task_status_eq. destruct (negb _); [exact Hwf|].
    destruct (update_first _ _ _) as [[ts' found]|] eqn:Hu; [|exact Hwf].
    split_and!; try done; simpl.
    + by eapply valid_task_update.
    + by eapply ids_by_position_update.
  - exact Hwf.
Qed.

(** One call on the database [db] keeps the notes and the moods well
    formed. *)
Lemma handle_texts db w req s :
  unicode w = db →
  Forall (valid_reminder db) (reminders s) ∧ Forall (valid_mood db) (moods s) →
  Forall (valid_reminder db) (reminders (fst (handle w req s))) ∧
  Forall (valid_mood db) (moods (fst (handle w req s))).
Proof.
  intros <- Hwf. pose proof Hwf as (Hn & Hm).
  destruct req as [nd|md|t|ss| |c|tid u|]; unfold handle; rewrite bind_ret_eq.
  - rewrite add_note_eq.
    destruct (Ustr.truthy (Ustr.strip (unicode w) (note nd))) eqn:Hb;
      cbn [negb]; cbv iota; [|exact Hwf].
    destruct (PyStr.mem (category nd) NOTE_CATEGORIES) eqn:Hc; cbn [negb]; cbv iota;
      [|exact Hwf].
    split; [|done]. simpl. apply Forall_app. split; [done|].
    apply Forall_singleton. split_and!; [|by apply KeywordFacts.mem_elem_of|done].
    by apply StripFacts.strip_truthy_iff_not_blank.
  - rewrite mood_check_eq.
    destruct (Ustr.truthy (Ustr.strip (unicode w) (text md))) eqn:Hb;
      cbn [negb]; cbv iota; [|exact Hwf].
    split; [done|]. simpl. apply Forall_app. split; [done|].
    apply Forall_singleton. split_and!.
    + by apply StripFacts.strip_truthy_iff_not_blank.
    + apply LedgerFacts.mood_of_label.
    + apply MoodEntryFacts.mood_of_tip.
  - rewrite add_task_eq. destruct (negb _); exact Hwf.
  - rewrite record_study_session_eq. destruct (negb _); [exact Hwf|].
    destruct (_ || _); exact Hwf.
  - exact Hwf.
  - rewrite get_study_tips_eq. destruct (dict_get STUDY_TIPS c); exact Hwf.
  - rewrite update_task_status_eq. destruct (negb _); [exact Hwf|].
    destruct (update_first _ _ _) as [[ts' found]|]; exact Hwf.
  - exact Hwf.
Qed.

Lemma run_records calls : ∀ s,
  well_formed_records s → well_formed_records (fst (run calls s)).
Proof.
  induction calls as [|[w req] calls IH]; intros s Hs; [done|].
  rewrite run_cons. simpl fst. by apply IH, handle_records.
Qed.

Lemma run_well_formed db calls : ∀ s,
  on_database db calls → well_formed db s → well_formed db (fst (run calls s)).
Proof.
  induction calls as [|[w req] calls IH]; intros s Hdb Hs; [done|].
  apply Forall_cons in Hdb as [Hw Hdb]. cbn [fst] in Hw.
  rewrite run_cons. simpl fst. apply IH; [done|].
  destruct Hs as (Hn & Hm & Hrec).
  destruct (handle_texts db w req s Hw (conj Hn Hm)) as [Hn' Hm'].
  split_and!; [done|done|]. by apply handle_records.
Qed.

Lemma initial_records : well_formed_records initial_store.
Proof.
  unfold well_formed_records, initial_store. simpl. split_and!; by constructor.
Qed.

Lemma initial_well_formed db : well_formed db initial_store.
Proof.
  unfold well_formed. split_and!; [constructor|constructor|apply initial_records].
Qed.

Lemma reachable_invariant s : Ledger.reachable s → well_formed_records s.
Proof. intros [calls ->]. apply run_records, initial_records. Qed.

(** The entry at a position whose id occurs at no other position is the
    one the loop of [update_task_status] finds. *)
Lemma update_first_at st : ∀ ts k t,
  NoDup (map t_id ts) → ts !! k = Some t →
  update_first (t_id t) st ts
  = Some (<[k := set_status t st]> ts, set_status t st).
Proof.
  induction ts as [|t0 ts IH]; intros k t Hnd Hk; [done|].
  change (map t_id (t0 :: ts)) with (t_id t0 :: map t_id ts) in Hnd.
  apply NoDup_cons in Hnd as [Hnot Hnd]. simpl.
  destruct k as [|k]; simpl in Hk.
  - injection Hk as ->. by rewrite String.eqb_refl.
  - destruct (String.eqb_spec (t_id t0) (t_id t)) as [Heq|Hne].
    + exfalso. apply Hnot. rewrite Heq.
      apply list_elem_of_fmap. exists t. split; [done|].
      by eapply list_elem_of_lookup_2.
    + by rewrite (IH k t Hnd Hk).
Qed.

End WellFormedFacts.

(** X3: every store the service can reach is well formed: each note has a
    text that is not blank, a known category and the keywords of its text;
    each mood has a text that is not blank, one of the three labels and one
    of the five tips; each task has a known subject; each study session has
    a known subject and a duration from 5 to 480; and the task at position
    k (counting from 0) has id k + 1.  Blank texts and keywords are those
    of the Unicode database the service runs on. *)
Theorem reachable_well_formed (db : Ustr.Database) (calls : list (World * Request)) :
  StoreSpec.on_database db calls →
  StoreSpec.well_formed db (fst (run calls initial_store)).
Proof.
  intros Hdb.
  by apply WellFormedFacts.run_well_formed, WellFormedFacts.initial_well_formed.
Qed.

Lemma reachable_well_formed_witness :
  StoreSpec.on_database Fixtures.latin1 Fixtures.french_day ∧
  StoreSpec.well_formed Fixtures.latin1 (fst (run Fixtures.french_day initial_store)).
Proof.
  assert (StoreSpec.on_database Fixtures.latin1 Fixtures.french_day) as Hdb
    by (repeat (apply Forall_cons_2; [reflexivity|]); apply Forall_nil_2).
  split; [exact Hdb|].
  exact (reachable_well_formed Fixtures.latin1 Fixtures.french_day Hdb).
Defined.

(** X4: in a reachable store an id addresses a position: with a valid
    status, [update_task_status] on the id k + 1 of the task at position k
    succeeds, writes the new status into that task (and changes nothing
    else of it, nor any other task) and returns it; on an id that is not
    the decimal string of a position it fails with status 404. *)
Theorem update_task_status_by_position (s : Store) (st : string) :
  Ledger.reachable s → st ∈ TASK_STATUSES →
  (∀ k t,
     tasks s !! k = Some t →
     t_id t = str (Z.of_nat k + 1) ∧
     ∃ t',
       update_task_status (str (Z.of_nat k + 1)) (mkTaskUpdate st) s
       = (mkStore (reminders s) (moods s) (<[k := t']> (tasks s)) (study_sessions s),
          inr {| su_message := "Task status updated"; su_task := t' |}) ∧
       t_status t' = st ∧
       t_title t' = t_title t ∧ t_description t' = t_description t ∧
       t_due_date t' = t_due_date t ∧ t_subject t' = t_subject t ∧
       t_priority t' = t_priority t ∧ t_id t' = t_id t ∧
       t_timestamp t' = t_timestamp t) ∧
  (∀ tid,
     (∀ k, (k < length (tasks s))%nat → tid ≠ str (Z.of_nat k + 1)) →
     update_task_status tid (mkTaskUpdate st) s
     = (s, inl (HTTPException 404 "Task not found"))).
Proof.
  intros Hreach%WellFormedFacts.reachable_invariant Hst%KeywordFacts.mem_elem_of.
  destruct Hreach as (_ & _ & Hids). unfold StoreSpec.ids_by_position in Hids.
  assert (∀ k t, tasks s !! k = Some t → t_id t = str (Z.of_nat k + 1)) as Hid.
  { intros k t Hk.
    assert (map t_id (tasks s) !! k = Some (t_id t)) as Hk'.
    { change (map t_id (tasks s)) with (t_id <$> tasks s).
      by rewrite list_lookup_fmap, Hk. }
    rewrite Hids in Hk'. unfold TaskIds.decimal_ids in Hk'.
    change (map ?f ?l) with (f <$> l) in Hk'.
    rewrite list_lookup_fmap in Hk'.
    destruct (seq 1 (length (tasks s)) !! k) as [j|] eqn:Hj; [|done].
    apply lookup_seq in Hj as [-> _].
    change (Some (str (Z.of_nat (1 + k))) = Some (t_id t)) in Hk'.
    assert (t_id t = str (Z.of_nat (1 + k))) as -> by congruence.
    f_equal. lia. }
  split.
  - intros k t Hk. split; [by apply Hid|].
    exists (set_status t st).
    split; [|exact (HandlerFacts.set_status_written t st)].
    rewrite HandlerFacts.update_task_status_eq. cbn [new_status]. rewrite Hst.
    cbn [negb]. cbv iota. rewrite <-(Hid k t Hk).
    rewrite (WellFormedFacts.update_first_at st (tasks s) k t); [done| |done].
    rewrite Hids. apply TaskIdFacts.decimal_ids_NoDup.
  - intros tid Hnot.
    rewrite HandlerFacts.update_task_status_eq. cbn [new_status]. rewrite Hst.
    cbn [negb]. cbv iota.
    assert (update_first tid st (tasks s) = None) as ->; [|done].
    apply HandlerFacts.update_first_None. intros Hin.
    apply list_elem_of_fmap in Hin as (t & -> & Ht).
    apply list_elem_of_lookup in Ht as [k Hk].
    apply (Hnot k); [by eapply lookup_lt_Some|by apply Hid].
Qed.

Lemma update_task_status_by_position_witness :
  Ledger.reachable Fixtures.two_tasks ∧ "in-progress" ∈ TASK_STATUSES ∧
  (∀ k t,
     tasks Fixtures.two_tasks !! k = Some t →
     t_id t = str (Z.of_nat k + 1) ∧
     ∃ t',
       update_task_status (str (Z.of_nat k + 1)) (mkTaskUpdate "in-progress")
         Fixtures.two_tasks
       = (mkStore (reminders Fixtures.two_tasks) (moods Fixtures.two_tasks)
            (<[k := t']> (tasks Fixtures.two_tasks)) (study_sessions Fixtures.two_tasks),
          inr {| su_message := "Task status updated"; su_task := t' |}) ∧
       t_status t' = "in-progress" ∧
       t_title t' = t_title t ∧ t_description t' = t_description t ∧
       t_due_date t' = t_due_date t ∧ t_subject t' = t_subject t ∧
       t_priority t' = t_priority t ∧ t_id t' = t_id t ∧
       t_timestamp t' = t_timestamp t) ∧
  (∀ tid,
     (∀ k, (k < length (tasks Fixtures.two_tasks))%nat → tid ≠ str (Z.of_nat k + 1)) →
     update_task_status tid (mkTaskUpdate "in-progress") Fixtures.two_tasks
     = (Fixtures.two_tasks, inl (HTTPException 404 "Task not found"))).
Proof.
  assert (Ledger.reachable Fixtures.two_tasks) as Hreach.
  { exists [(Fixtures.world, AddTask Fixtures.essay); (Fixtures.world, AddTask Fixtures.lab)].
    reflexivity. }
  assert ("in-progress" ∈ TASK_STATUSES) as Hst
    by (unfold TASK_STATUSES; repeat constructor).
  split; [exact Hreach|]. split; [exact Hst|].
  exact (update_task_status_by_position Fixtures.two_tasks "in-progress" Hreach Hst).
Defined.

(** * How calls compose *)

Module ComposeFacts.
Import Expected StoreSpec HandlerFacts RunFacts.

Lemma set_status_twice t a b : set_status (set_status t a) b = set_status t b.
Proof. reflexivity. Qed.

(** The loop after the loop: the second status is the one that stays. *)
Lemma update_first_twice tid a b : ∀ ts,
  update_first tid b
    (match update_first tid a ts with Some (ts', _) => ts' | None => ts end)
  = update_first tid b ts.
Proof.
  induction ts as [|t ts IH]; [done|]. simpl.
  destruct (String.eqb_spec (t_id t) tid) as [Heq|Hne].
  - simpl. destruct (String.eqb_spec (t_id t) tid); [done|congruence].
  - destruct (update_first tid a ts) as [[ts' f]|] eqn:Ha; simpl.
    + destruct (String.eqb_spec (t_id t) tid); [congruence|]. by rewrite IH.
    + destruct (String.eqb_spec (t_id t) tid); [congruence|]. done.
Qed.

Lemma same_but_status_refl t : same_but_status t t.
Proof. unfold same_but_status. by split_and!. Qed.

Lemma same_but_status_trans t1 t2 t3 :
  same_but_status t1 t2 → same_but_status t2 t3 → same_but_status t1 t3.
Proof.
  unfold same_but_status. intros (?&?&?&?&?&?&?) (?&?&?&?&?&?&?).
  split_and!; congruence.
Qed.

(** The assignment of line 240 leaves every field but the status. *)
Lemma same_but_status_set t st : same_but_status t (set_status t st).
Proof. unfold same_but_status. by split_and!. Qed.

Lemma same_but_status_all ts : Forall2 same_but_status ts ts.
Proof. induction ts; constructor; [apply same_but_status_refl|done]. Qed.

Lemma grown_refl s : grown s s.
Proof.
  unfold grown. split_and!; try done.
  exists (tasks s), []. split; [by rewrite app_nil_r|apply same_but_status_all].
Qed.

Lemma grown_trans s1 s2 s3 : grown s1 s2 → grown s2 s3 → grown s1 s3.
Proof.
  intros (Hn & Hm & (old & new & Ht & Hold) & Hs)
         (Hn' & Hm' & (old' & new' & Ht' & Hold') & Hs').
  unfold grown. split_and!; [by etrans|by etrans| |by etrans].
  rewrite Ht in Hold'.
  apply Forall2_app_inv_l in Hold' as (k1 & k2 & Hk1 & Hk2 & ->).
  exists k1, (k2 ++ new'). split; [by rewrite Ht', <-app_assoc|].
  clear -Hold Hk1. revert k1 Hk1.
  induction Hold as [|t t' ts ts' Htt' _ IH]; intros k1 Hk1.
  - apply Forall2_nil_inv_l in Hk1 as ->. constructor.
  - apply Forall2_cons_inv_l in Hk1 as (t'' & k1' & Ht'' & Hk1' & ->).
    constructor; [by eapply same_but_status_trans|by apply IH].
Qed.

Lemma handle_grown w req s : grown s (fst (handle w req s)).
Proof.
  destruct req as [nd|md|t|ss| |c|tid u|]; unfold handle; rewrite bind_ret_eq.
  - rewrite add_note_eq. destruct (negb _); [apply grown_refl|].
    destruct (negb _); [apply grown_refl|].
    destruct (grown_refl s) as (Hn & Hm & Ht & Hs).
    unfold grown. simpl. split_and!; try done. by apply prefix_app_r.
  - rewrite mood_check_eq. destruct (negb _); [apply grown_refl|].
    destruct (grown_refl s) as (Hn & Hm & Ht & Hs).
    unfold grown. simpl. split_and!; try done. by apply prefix_app_r.
  - rewrite add_task_eq. destruct (negb _); [apply grown_refl|].
    unfold grown. simpl. split_and!; try done.
    eexists (tasks s), [_]. split; [done|apply same_but_status_all].
  - rewrite record_study_session_eq.
    destruct (negb _); [apply grown_refl|]. destruct (_ || _); [apply grown_refl|].
    destruct (grown_refl s) as (Hn & Hm & Ht & Hs).
    unfold grown. simpl. split_and!; try done. by apply prefix_app_r.
  - apply grown_refl.
  - rewrite get_study_tips_eq. destruct (dict_get STUDY_TIPS c); apply grown_refl.
  - rewrite update_task_status_eq. destruct (negb _); [apply grown_refl|].
    destruct (update_first _ _ _) as [[ts' found]|] eqn:Hu; [|apply grown_refl].
    apply update_first_Some in Hu as (before & t & after & Hts & _ & _ & -> & ->).
    unfold grown. simpl. split_and!; try done.
    exists (before ++ set_status t (new_status u) :: after), [].
    split; [by rewrite app_nil_r|]. rewrite Hts.
    apply Forall2_app; [apply same_but_status_all|].
    constructor; [apply same_but_status_set|apply same_but_status_all].
  - apply grown_refl.
Qed.

(** A call that fails has changed nothing, when the random generator
    keeps to its range. *)
Lemma handle_failed_unchanged w req s :
  randint_in_range w →
  Ledger.succeeded (snd (handle w req s)) = false → fst (handle w req s) = s.
Proof.
  intros Hrand.
  destruct req as [nd|md|t|ss| |c|tid u|]; unfold handle; rewrite bind_ret_eq;
    cbn [fst snd].
  - rewrite add_note_eq. destruct (negb _); [done|]. by destruct (negb _).
  - rewrite mood_check_eq. by destruct (negb _).
  - rewrite add_task_eq. by destruct (negb _).
  - rewrite record_study_session_eq.
    destruct (negb _); [done|]. destruct (_ || _); [done|].
    destruct (session_tip_in_range w (duration ss) Hrand) as (tip & -> & _).
    done.
  - done.
  - rewrite get_study_tips_eq. by destruct (dict_get STUDY_TIPS c).
  - rewrite update_task_status_eq. destruct (negb _); [done|].
    by destruct (update_first _ _ _) as [[ts' found]|].
  - done.
Qed.

End ComposeFacts.

(** X5: of two status updates of the same id the second one wins: with
    valid statuses, updating to [a] and then to [b] leaves the same stores
    and gives the same answer as updating to [b] at once.  In particular,
    repeating an update changes nothing more. *)
Theorem update_task_status_last_wins (s : Store) (tid a b : string) :
  a ∈ TASK_STATUSES → b ∈ TASK_STATUSES →
  update_task_status tid (mkTaskUpdate b)
    (fst (update_task_status tid (mkTaskUpdate a) s))
  = update_task_status tid (mkTaskUpdate b) s.
Proof.
  intros Ha%KeywordFacts.mem_elem_of Hb%KeywordFacts.mem_elem_of.
  rewrite !HandlerFacts.update_task_status_eq. cbn [new_status].
  rewrite Ha, Hb. cbn [negb]. cbv iota.
  pose proof (ComposeFacts.update_first_twice tid a b (tasks s)) as Htwice.
  destruct (update_first tid a (tasks s)) as [[ts' f]|] eqn:Hfirst; [|done].
  cbn [fst Expected.with_tasks tasks reminders moods study_sessions].
  rewrite Htwice.
  destruct (update_first tid b (tasks s)) as [[ts'' g]|] eqn:Hsecond; [done|].
  apply HandlerFacts.update_first_None in Hsecond.
  apply (HandlerFacts.update_first_None tid a) in Hsecond. congruence.
Qed.

Lemma update_task_status_last_wins_witness :
  update_task_status "2" (mkTaskUpdate "completed")
    (fst (update_task_status "2" (mkTaskUpdate "in-progress") Fixtures.two_tasks))
  = update_task_status "2" (mkTaskUpdate "completed") Fixtures.two_tasks.
Proof.
  apply (update_task_status_last_wins Fixtures.two_tasks "2" "in-progress" "completed");
    unfold TASK_STATUSES; repeat constructor.
Defined.

(** X6: no call removes, reorders or rewrites a stored record.  After any
    sequence of calls, the notes, moods and study sessions that were stored
    open the new lists unchanged, and so do the tasks, each with its title,
    description, due date, subject, priority, id and timestamp as they
    were: the status is the one field that may have changed. *)
Theorem stores_only_grow (calls : list (World * Request)) (s : Store) :
  StoreSpec.grown s (fst (run calls s)).
Proof.
  revert s. induction calls as [|[w req] calls IH]; intros s;
    [apply ComposeFacts.grown_refl|].
  rewrite RunFacts.run_cons. cbn [fst].
  eapply ComposeFacts.grown_trans; [apply ComposeFacts.handle_grown|apply IH].
Qed.

(** X7: rejected calls leave no trace.  When the random generator keeps to
    its range, running only the calls that were accepted ends in the same
    stores as running them all, and gives the accepted calls the same
    responses. *)
Theorem rejected_calls_leave_no_trace (calls : list (World * Request)) (s : Store) :
  Forall (λ c, randint_in_range (fst c)) calls →
  fst (run (StoreSpec.accepted calls s) s) = fst (run calls s) ∧
  snd (run (StoreSpec.accepted calls s) s)
  = List.filter Ledger.succeeded (snd (run calls s)).
Proof.
  revert s. induction calls as [|[w req] calls IH]; intros s Hrand; [done|].
  apply Forall_cons in Hrand as [Hw Hrand]. cbn [fst] in Hw.
  rewrite RunFacts.run_cons. cbn [fst snd StoreSpec.accepted List.filter].
  destruct (Ledger.succeeded (snd (handle w req s))) eqn:Hok.
  - rewrite RunFacts.run_cons. cbn [fst snd].
    destruct (IH (fst (handle w req s)) Hrand) as [-> ->]. done.
  - rewrite (ComposeFacts.handle_failed_unchanged w req s Hw Hok) in *.
    by apply IH.
Qed.

Lemma rejected_calls_leave_no_trace_witness :
  let calls :=
    [ (Fixtures.world, AddTask Fixtures.essay);
      (Fixtures.world, AddNote (mkNote (Ustr.of_ascii "  ") "Homework" None));
      (Fixtures.world, UpdateTaskStatus "9" (mkTaskUpdate "completed"));
      (Fixtures.world, RecordStudySession (mkStudySession "Physics" 45 [] []));
      (Fixtures.world, UpdateTaskStatus "1" (mkTaskUpdate "completed")) ] in
  fst (run (StoreSpec.accepted calls initial_store) initial_store)
  = fst (run calls initial_store) ∧
  snd (run (StoreSpec.accepted calls initial_store) initial_store)
  = List.filter Ledger.succeeded (snd (run calls initial_store)).
Proof.
  apply (rejected_calls_leave_no_trace
           [ (Fixtures.world, AddTask Fixtures.essay);
             (Fixtures.world, AddNote (mkNote (Ustr.of_ascii "  ") "Homework" None));
             (Fixtures.world, UpdateTaskStatus "9" (mkTaskUpdate "completed"));
             (Fixtures.world, RecordStudySession (mkStudySession "Physics" 45 [] []));
             (Fixtures.world, UpdateTaskStatus "1" (mkTaskUpdate "completed")) ]
           initial_store).
  repeat (apply Forall_cons_2; [exact fixture_world_randint|]). apply Forall_nil_2.
Defined.

(** * More on the statistics *)

Module BreakdownFacts.
Import StoreSpec StatsSpec.

Lemma add_comm_acc (j1 j2 : string) (z1 z2 y : Z) :
  z1 + (z2 + y) = z2 + (z1 + y).
Proof. lia. Qed.

Lemma breakdown_total_insert (m : gmap string Z) (k : string) (v : Z) :
  breakdown_total (<[k := v]> m) = breakdown_total m - default 0 (m !! k) + v.
Proof.
  unfold breakdown_total. destruct (m !! k) as [x|] eqn:Hk; simpl.
  - rewrite (map_fold_delete_L _ _ k x m); [|intros; apply add_comm_acc; done|done].
    rewrite <-insert_delete_eq.
    rewrite map_fold_insert_L;
      [|intros; apply add_comm_acc; done|by rewrite lookup_delete_eq].
    lia.
  - rewrite map_fold_insert_L; [|intros; apply add_comm_acc; done|done]. lia.
Qed.

Lemma breakdown_total_foldl (sessions : list SessionEntry) : ∀ acc,
  breakdown_total (foldl add_session acc sessions)
  = breakdown_total acc + total (map s_duration sessions).
Proof.
  induction sessions as [|e l IH]; intros acc; simpl; [lia|].
  rewrite IH. unfold add_session. rewrite breakdown_total_insert. lia.
Qed.

Lemma total_bounds (l : list Z) (lo hi : Z) :
  Forall (λ d, lo ≤ d ≤ hi) l →
  lo * Z.of_nat (length l) ≤ total l ≤ hi * Z.of_nat (length l).
Proof.
  induction 1 as [|d l Hd _ IH]; simpl; [lia|].
  unfold total in *. simpl. lia.
Qed.

Lemma durations_for_le subj (sessions : list SessionEntry) :
  Forall (λ e, 0 ≤ s_duration e) sessions →
  total (durations_for subj sessions) ≤ total (map s_duration sessions).
Proof.
  unfold durations_for, total.
  induction 1 as [|e l He _ IH]; [done|].
  destruct (decide (s_subject e = subj)) as [Heq|Hne].
  - rewrite filter_cons_True by done. simpl. lia.
  - rewrite filter_cons_False by done. simpl. lia.
Qed.

Lemma durations_for_ge subj (sessions : list SessionEntry) (lo : Z) :
  0 ≤ lo → Forall (λ e, lo ≤ s_duration e) sessions →
  subj ∈ map s_subject sessions →
  lo ≤ total (durations_for subj sessions).
Proof.
  unfold durations_for, total. intros Hlo.
  induction 1 as [|e l He Hl IH]; [by intros ?%elem_of_nil|].
  change (map s_subject (e :: l)) with (s_subject e :: map s_subject l).
  intros Hin. destruct (decide (s_subject e = subj)) as [Heq|Hne].
  - rewrite filter_cons_True by done. simpl.
    assert (0 ≤ foldr Z.add 0 (map s_duration (filter (λ e0, s_subject e0 = subj) l))).
    { clear IH Hin. induction Hl as [|e' l' He' _ IH']; [done|].
      destruct (decide (s_subject e' = subj)).
      - rewrite filter_cons_True by done. simpl. lia.
      - by rewrite filter_cons_False. }
    lia.
  - rewrite filter_cons_False by done. apply IH.
    apply elem_of_cons in Hin as [?|?]; [congruence|done].
Qed.

End BreakdownFacts.

(** X8: the statistics agree with each other on every store: the values of
    [subjects_breakdown] add up to [total_study_time_minutes]. *)
Theorem breakdown_adds_up_to_total (s : Store) :
  ∃ stats,
    get_study_stats s = (s, inr stats) ∧
    StoreSpec.breakdown_total (subjects_breakdown stats)
    = total_study_time_minutes stats.
Proof.
  unfold get_study_stats, HM.bind, HM.get, HM.ret. cbv beta iota zeta.
  eexists. split; [reflexivity|].
  cbn [total_study_time_minutes subjects_breakdown].
  rewrite BreakdownFacts.breakdown_total_foldl, StatsFacts.sum_total.
  unfold StoreSpec.breakdown_total. by rewrite map_fold_empty.
Qed.

(** X9: on a reachable store the statistics stay within the limits the
    handlers enforce: with n study sessions stored, the total study time
    is between 5 n and 480 n minutes, and every subject of the breakdown is
    one of [SUBJECTS], with at least 5 minutes and at most the total. *)
Theorem study_stats_bounds (s : Store) :
  Ledger.reachable s →
  ∃ stats,
    get_study_stats s = (s, inr stats) ∧
    5 * Z.of_nat (length (study_sessions s)) ≤ total_study_time_minutes stats
    ≤ 480 * Z.of_nat (length (study_sessions s)) ∧
    ∀ subj minutes,
      subjects_breakdown stats !! subj = Some minutes →
      subj ∈ SUBJECTS ∧ 5 ≤ minutes ≤ total_study_time_minutes stats.
Proof.
  intros (_ & Hs & _)%WellFormedFacts.reachable_invariant.
  unfold get_study_stats, HM.bind, HM.get, HM.ret. cbv beta iota zeta.
  eexists. split; [reflexivity|].
  cbn [total_study_time_minutes subjects_breakdown].
  rewrite StatsFacts.sum_total. split.
  - rewrite <-(length_map s_duration (study_sessions s)).
    apply BreakdownFacts.total_bounds.
    apply Forall_fmap. eapply Forall_impl; [exact Hs|]. by intros e [_ ?].
  - intros subj minutes. rewrite StatsFacts.breakdown_lookup, lookup_empty.
    destruct (decide (subj ∈ map s_subject (study_sessions s))) as [Hin|]; [|done].
    intros [= <-]. cbn [default]. rewrite Z.add_0_l. split_and!.
    + apply list_elem_of_fmap in Hin as (e & -> & He).
      rewrite Forall_forall in Hs. by apply Hs.
    + apply BreakdownFacts.durations_for_ge; [lia| |done].
      eapply Forall_impl; [exact Hs|]. intros e [_ ?]. simpl. lia.
    + apply BreakdownFacts.durations_for_le.
      eapply Forall_impl; [exact Hs|]. intros e [_ ?]. simpl. lia.
Qed.

Lemma study_stats_bounds_witness :
  let s := fst (run [ (Fixtures.world,
                        RecordStudySession (mkStudySession "Physics" 45 [] []));
                      (Fixtures.world,
                        RecordStudySession (mkStudySession "History" 480 [] [])) ]
                 initial_store) in
  ∃ stats,
    get_study_stats s = (s, inr stats) ∧
    5 * Z.of_nat (length (study_sessions s)) ≤ total_study_time_minutes stats
    ≤ 480 * Z.of_nat (length (study_sessions s)) ∧
    ∀ subj minutes,
      subjects_breakdown stats !! subj = Some minutes →
      subj ∈ SUBJECTS ∧ 5 ≤ minutes ≤ total_study_time_minutes stats.
Proof.
  apply (study_stats_bounds
           (fst (run [ (Fixtures.world,
                         RecordStudySession (mkStudySession "Physics" 45 [] []));
                       (Fixtures.world,
                         RecordStudySession (mkStudySession "History" 480 [] [])) ]
                   initial_store))).
  exists [ (Fixtures.world, RecordStudySession (mkStudySession "Physics" 45 [] []));
           (Fixtures.world, RecordStudySession (mkStudySession "History" 480 [] [])) ].
  reflexivity.
Defined.

(** * Study tips *)

(** X10: [get_study_tips] knows exactly the categories "focus", "memory"
    and "motivation", spelled so: for these it returns the category and
    its four tips, for every other string it fails with status 400 and the
    list of the three; in both cases the stores are untouched. *)
Theorem get_study_tips_decision (category : string) (s : Store) :
  (category ∈ ["focus"; "memory"; "motivation"] →
     ∃ tips,
       get_study_tips category s
       = (s, inr {| tf_category := category; tf_tips := tips |}) ∧
       dict_get STUDY_TIPS category = Some tips ∧ length tips = 4%nat) ∧
  ((category ∉ ["focus"; "memory"; "motivation"]) →
     get_study_tips category s
     = (s, inl (HTTPException 400
                  "Invalid category. Choose from: focus, memory, motivation"))).
Proof.
  rewrite HandlerFacts.get_study_tips_eq. split.
  - intros [->|[->|[->|[]%elem_of_nil]%elem_of_cons]%elem_of_cons]%elem_of_cons;
      eexists; (split; [reflexivity|]); by split.
  - intros Hnot. unfold STUDY_TIPS, dict_get.
    destruct (String.eqb_spec "focus" category) as [<-|_].
    { exfalso. apply Hnot. repeat constructor. }
    destruct (String.eqb_spec "memory" category) as [<-|_].
    { exfalso. apply Hnot. repeat constructor. }
    destruct (String.eqb_spec "motivation" category) as [<-|_].
    { exfalso. apply Hnot. repeat constructor. }
    reflexivity.
Qed.

(** * The body [add_task] answers with *)

(** X11: the answer of [add_task] carries no confirmation text: the task's
    own "status" field overwrites the "Task added" banner the answer starts
    from.  The body has the eight fields of the stored entry with the values
    of the stored entry, "status" first. *)
Theorem add_task_body_status (w : World) (task : Task) (s : Store) :
  dict_get (Body.add_task_body w task s) "status" = Some (Body.VStr (status task)) ∧
  dict_keys (Body.add_task_body w task s)
  = ["status"; "title"; "description"; "due_date"; "subject"; "priority"; "id";
     "timestamp"] ∧
  ∀ response,
    snd (add_task w task s) = inr response →
    ∀ key,
      dict_get (Body.add_task_body w task s) key
      = dict_get (Body.of_entry (ta_entry response)) key.
Proof.
  split_and!; [reflexivity|reflexivity|].
  intros response. rewrite HandlerFacts.add_task_eq.
  destruct (negb _); [discriminate|]. intros [= <-] key.
  unfold Body.add_task_body, Body.task_entry, Body.task_dict, Body.merge, Body.of_entry,
    Expected.task_entry_of, len.
  cbn [foldl Body.set fst snd String.eqb Ascii.eqb Bool.eqb
       t_title t_description t_due_date t_subject t_priority t_status t_id t_timestamp].
  cbn [dict_get].
  destruct (String.eqb "status" key) eqn:Hk; [|done].
  apply String.eqb_eq in Hk as <-. reflexivity.
Qed.

(** * Shape of the keywords of ASCII text *)

Module LowerFacts.
Import Re AsciiSpec.

(** Case analysis on the comparisons of a goal. *)
Ltac compare_cases :=
  repeat match goal with
    | |- context [(?a <=? ?b)%N] => destruct (N.leb_spec a b)
    | |- context [(?a =? ?b)%N] => destruct (N.eqb_spec a b)
    end;
  cbn [andb orb]; try reflexivity; try (exfalso; lia).

Lemma lower_char_word c : is_word (lower_char c) = is_word c.
Proof.
  unfold lower_char. destruct (is_upper c) eqn:Hu; [|reflexivity].
  apply andb_true_iff in Hu as [H1%N.leb_le H2%N.leb_le].
  unfold is_word, is_upper. compare_cases.
Qed.

Lemma lower_char_not_upper c : is_upper (lower_char c) = false.
Proof.
  unfold lower_char. destruct (is_upper c) eqn:Hu; [|done].
  apply andb_true_iff in Hu as [H1%N.leb_le H2%N.leb_le].
  unfold is_upper. compare_cases.
Qed.

Lemma lower_char_twice c : lower_char (lower_char c) = lower_char c.
Proof. unfold lower_char at 1. by rewrite lower_char_not_upper. Qed.

Lemma lower_char_ascii c : (c < 128)%N → (lower_char c < 128)%N.
Proof.
  unfold lower_char. destruct (is_upper c) eqn:Hu; [|done].
  apply andb_true_iff in Hu as [H1%N.leb_le H2%N.leb_le]. lia.
Qed.

Lemma text_lower s : text s → text (map lower_char s).
Proof.
  unfold text. intros Hs. apply Forall_fmap. eapply Forall_impl; [exact Hs|].
  intros c. apply lower_char_ascii.
Qed.

Lemma text_slice s sp : text s → text (slice s sp).
Proof.
  unfold text, slice. intros Hs. by apply Forall_take, Forall_drop.
Qed.

Lemma slice_lower s sp : slice (map lower_char s) sp = map lower_char (slice s sp).
Proof.
  unfold slice. change (map lower_char ?l) with (lower_char <$> l).
  by rewrite fmap_take, fmap_drop.
Qed.

Section ascii_database.
Context (db : Ustr.Database) (Hdb : agrees db).

Lemma lower_ascii s : text s → Ustr.lower db s = map lower_char s.
Proof. apply Hdb. Qed.

Lemma is_word_ascii c : (c < 128)%N → Ustr.is_word db c = is_word c.
Proof. apply Hdb. Qed.

Lemma lower_length s : text s → length (Ustr.lower db s) = length s.
Proof. intros Hs. by rewrite lower_ascii, length_map. Qed.

Lemma lower_twice s : text s → Ustr.lower db (Ustr.lower db s) = Ustr.lower db s.
Proof.
  intros Hs. rewrite (lower_ascii s Hs), (lower_ascii _ (text_lower s Hs)), map_map.
  apply map_ext. intros c. apply lower_char_twice.
Qed.

(** The matcher sees only which characters are word characters, and
    lower-casing keeps that. *)
Lemma word_at_lower s k : text s → word_at db (map lower_char s) k = word_at db s k.
Proof.
  intros Hs. unfold word_at. change (map lower_char s) with (lower_char <$> s).
  rewrite list_lookup_fmap. destruct (s !! k) as [c|] eqn:Hc; simpl; [|done].
  assert (c < 128)%N as Hlt.
  { unfold text in Hs. rewrite Forall_forall in Hs. apply Hs.
    by eapply list_elem_of_lookup_2. }
  rewrite (is_word_ascii c Hlt), (is_word_ascii _ (lower_char_ascii c Hlt)).
  apply lower_char_word.
Qed.

Lemma boundary_lower s k : text s → boundary db (map lower_char s) k = boundary db s k.
Proof.
  intros Hs. unfold boundary, word_before. destruct k; by rewrite ?word_at_lower.
Qed.

Lemma word_prefix_len_lower l :
  text l → word_prefix_len db (map lower_char l) = word_prefix_len db l.
Proof.
  induction l as [|c l IH]; simpl; [done|]. intros [Hc Hl]%Forall_cons.
  rewrite (is_word_ascii c Hc), (is_word_ascii _ (lower_char_ascii c Hc)).
  rewrite lower_char_word, (IH Hl). done.
Qed.

Lemma run_length_lower s k :
  text s → run_length db (map lower_char s) k = run_length db s k.
Proof.
  intros Hs. unfold run_length. change (map lower_char s) with (lower_char <$> s).
  rewrite <-fmap_drop. apply word_prefix_len_lower. by apply Forall_drop.
Qed.

Lemma backtrack_lower s pos k :
  text s → backtrack db (map lower_char s) pos k = backtrack db s pos k.
Proof.
  intros Hs. induction k as [|k IH]; simpl; [done|]. by rewrite boundary_lower, IH.
Qed.

Lemma match_at_lower s pos :
  text s → match_at db (map lower_char s) pos = match_at db s pos.
Proof.
  intros Hs. unfold match_at.
  by rewrite boundary_lower, run_length_lower, backtrack_lower.
Qed.

Lemma scan_lower fuel : ∀ s pos,
  text s → scan db fuel (map lower_char s) pos = scan db fuel s pos.
Proof.
  induction fuel as [|fuel IH]; intros s pos Hs; simpl; [done|].
  rewrite length_map, match_at_lower by done.
  destruct (length s <? pos)%nat; [done|].
  destruct (match_at db s pos); by rewrite IH.
Qed.

Lemma findall_words_lower s :
  text s →
  findall_words db (Ustr.lower db s) = map (Ustr.lower db) (findall_words db s).
Proof.
  intros Hs. unfold findall_words, spans.
  rewrite (lower_ascii s Hs), length_map, scan_lower, map_map by done.
  apply map_ext. intros sp. rewrite slice_lower.
  by rewrite (lower_ascii _ (text_slice s sp Hs)).
Qed.

Lemma findall_words_text s : text s → Forall text (findall_words db s).
Proof.
  intros Hs. unfold findall_words. apply Forall_fmap, Forall_forall.
  intros sp _. by apply text_slice.
Qed.

(** Every word the matcher finds is made of word characters. *)
Lemma findall_words_word s w :
  w ∈ findall_words db s → Forall (λ c, Ustr.is_word db c = true) w.
Proof.
  unfold findall_words. change (map ?f ?l) with (f <$> l).
  intros ([i e] & -> & Hsp)%list_elem_of_fmap.
  destruct (ReFacts.scan_spec db (S (length s)) s 0) as [Hmem _];
    [lia|by left|].
  apply Hmem in Hsp as [_ (_ & Hin & _)]. unfold slice. cbn [fst snd].
  apply Forall_forall. intros c Hc.
  apply list_elem_of_lookup in Hc as [k Hk].
  apply lookup_take_Some in Hk as [Hk Hlt]. rewrite lookup_drop in Hk.
  destruct (Hin (i + k)%nat) as (c' & Hc' & Hw); [lia|]. congruence.
Qed.

End ascii_database.

End LowerFacts.

(** X12: on ASCII text, keyword extraction ignores the case of the text
    (the keywords of a text and of its lower-casing are the same), and
    every keyword is longer than 3 characters, is no stop word and
    consists of lower-case word characters only. *)
Theorem extract_keywords_shape (db : Ustr.Database) (txt : Ustr.t) :
  AsciiSpec.agrees db → AsciiSpec.text txt →
  extract_keywords db (Ustr.lower db txt) = extract_keywords db txt ∧
  Forall (λ k, (3 < length k)%nat ∧ (k ∉ STOP_WORDS) ∧ StoreSpec.lower_word k)
    (extract_keywords db txt).
Proof.
  intros Hdb Htxt. split.
  - unfold extract_keywords. rewrite LowerFacts.findall_words_lower by done.
    pose proof (LowerFacts.findall_words_text db txt Htxt) as Hwords.
    induction Hwords as [|w l Hw _ IH]; [done|]. cbn [flat_map map].
    rewrite IH, (LowerFacts.lower_twice db Hdb w Hw). unfold Ustr.len.
    by rewrite (LowerFacts.lower_length db Hdb w Hw).
  - unfold extract_keywords. apply Forall_forall. intros k Hk.
    apply list_elem_of_In, in_flat_map in Hk as (w & Hw%list_elem_of_In & Hk).
    destruct ((3 <? Ustr.len w) && negb (Ustr.mem (Ustr.lower db w) STOP_WORDS))
      eqn:Hkeep; [|by destruct Hk].
    destruct Hk as [<-|[]].
    apply KeywordFacts.keep_test_kept in Hkeep as [Hlen Hstop].
    assert (AsciiSpec.text w) as Hascii.
    { pose proof (LowerFacts.findall_words_text db txt Htxt) as Hwords.
      rewrite Forall_forall in Hwords. by apply Hwords. }
    split_and!; [by rewrite (LowerFacts.lower_length db Hdb w Hascii)|done|].
    unfold StoreSpec.lower_word. rewrite (LowerFacts.lower_ascii db Hdb w Hascii).
    apply LowerFacts.findall_words_word in Hw.
    apply Forall_fmap, Forall_forall. intros c Hc. simpl.
    rewrite LowerFacts.lower_char_word, LowerFacts.lower_char_not_upper.
    split; [|done].
    unfold AsciiSpec.text in Hascii. rewrite Forall_forall in Hascii, Hw.
    rewrite <-(LowerFacts.is_word_ascii db Hdb c (Hascii c Hc)). by apply Hw.
Qed.

(** The Latin-1 part of the Unicode database is the Unicode one on
    ASCII. *)
Lemma latin1_agrees : AsciiSpec.agrees Fixtures.latin1.
Proof.
  split.
  - intros c Hc.
    assert (c ∈ map N.of_nat (seq 0 128)) as Hin.
    { apply list_elem_of_fmap. exists (N.to_nat c).
      split; [lia|]. apply elem_of_seq. lia. }
    clear Hc. revert c Hin. apply Forall_forall. vm_compute. repeat constructor.
  - intros s Hs. simpl. apply map_ext_Forall.
    eapply Forall_impl; [exact Hs|]. intros c Hc. simpl in *.
    assert (c ∈ map N.of_nat (seq 0 128)) as Hin.
    { apply list_elem_of_fmap. exists (N.to_nat c).
      split; [lia|]. apply elem_of_seq. lia. }
    clear Hc. revert c Hin. apply Forall_forall. vm_compute. repeat constructor.
Defined.

Lemma extract_keywords_shape_witness :
  let txt := Ustr.of_ascii "Review CHAPTER nine, then Chapter ten_A with care" in
  AsciiSpec.agrees Fixtures.latin1 ∧ AsciiSpec.text txt ∧
  extract_keywords Fixtures.latin1 (Ustr.lower Fixtures.latin1 txt)
  = extract_keywords Fixtures.latin1 txt ∧
  Forall (λ k, (3 < length k)%nat ∧ (k ∉ STOP_WORDS) ∧ StoreSpec.lower_word k)
    (extract_keywords Fixtures.latin1 txt).
Proof.
  intros txt.
  assert (AsciiSpec.text txt) as Htxt.
  { unfold AsciiSpec.text. apply Forall_forall. intros c Hc.
    apply N.ltb_lt. revert c Hc. apply Forall_forall. vm_compute. repeat constructor. }
  split; [exact latin1_agrees|]. split; [exact Htxt|].
  exact (extract_keywords_shape Fixtures.latin1 txt latin1_agrees Htxt).
Defined.

(** Outside ASCII the case of the text can matter: the one word "İabc"
    (capital I with dot above) is a keyword, "i̇abc", while in its
    lower-casing the combining dot splits it into "i" and "abc", both too
    short. *)
Example extract_keywords_case_outside_ascii :
  extract_keywords Fixtures.latin1_dotted_I [304; 97; 98; 99]%N
  = [[105; 775; 97; 98; 99]]%N ∧
  extract_keywords Fixtures.latin1_dotted_I
    (Ustr.lower Fixtures.latin1_dotted_I [304; 97; 98; 99]%N) = [].
Proof. split; vm_compute; reflexivity. Qed.
